(** * PythonSuperMario: the screen state machine and the main menu

    A shallow embedding of [source/tools.py] (classes [State] and
    [Control]) and of [source/states/main_menu.py] (class [Menu]), and
    the properties of the specification proved about them.

    Python objects are shared and mutable, so the embedding keeps two
    stores: one of dictionaries (the persistent-data bundles) and one of
    screen objects.  A reference is a location in a store; two references
    are the same object exactly when the locations are equal. *)

From Stdlib Require Import ZArith List Bool Sorted.
From stdpp Require Import gmap strings list fin_maps.

Open Scope Z_scope.

(** ** Values, dictionaries and references *)

(** The values the bundle holds: numbers and strings.  Python compares
    [0.0] and [0] as equal; the only float literal of the sources is [0.0]
    and every time stamp comes from [pg.time.get_ticks()], an integer number
    of milliseconds, so numbers are integers here. *)
Inductive value :=
| VNum (n : Z)
| VStr (s : string).

#[global] Instance value_eq_dec : EqDecision value.
Proof. solve_decision. Defined.

Abbreviation loc := positive.
Abbreviation bundle := (gmap string value).
Abbreviation heap := (gmap loc bundle).

(** A screen identifier: a string, or Python's [None]. *)
Abbreviation ident := (option string).

(** [d[k] = v] on the dictionary that [d] refers to. *)
Definition dict_set (d : loc) (k : string) (v : value) (h : heap) : heap :=
  alter (insert k v) d h.

(** [d.get(k)]: the entry under [k] of the dictionary that [d] refers to. *)
Definition dict_get (d : loc) (k : string) (h : heap) : option value :=
  h !! d ≫= (λ b : bundle, b !! k).

Arguments dict_set : simpl never.
Arguments dict_get : simpl never.

(** A dictionary display [{...}] builds a new object. *)
Definition dict_new (b : bundle) (h : heap) : loc * heap :=
  let d := fresh (dom h) in (d, <[d := b]> h).

(** ** pygame *)

(** The key constants the sources index the key snapshot with. *)
Inductive key :=
| K_DOWN | K_UP | K_RETURN | K_LEFT | K_RIGHT | K_s | K_a
| K_other (code : Z).

(** What [pg.key.get_pressed()] returns: for each key, whether it is held. *)
Abbreviation keys_t := (key → bool).

Definition no_keys : keys_t := λ _, false.
Definition only (k : key) : keys_t :=
  λ k', match k, k' with
        | K_DOWN, K_DOWN | K_UP, K_UP | K_RETURN, K_RETURN
        | K_LEFT, K_LEFT | K_RIGHT, K_RIGHT | K_s, K_s | K_a, K_a => true
        | K_other a, K_other b => a =? b
        | _, _ => false
        end.

(** The event types [Control.event_loop] tells apart. *)
Inductive event_type := QUIT | KEYDOWN | KEYUP | OTHER.

(** An event of the queue, together with the answer [pg.key.get_pressed()]
    gives if it is asked while this event is handled. *)
Record event := Event { type : event_type; pressed : keys_t }.

(** ** tools.State *)

Module State.

Record t := mk {
  start_time : Z;
  current_time : Z;
  done : bool;
  next : ident;
  persist : loc
}.

(** [State.__init__]: [self.persist = {}] is a new dictionary. *)
Definition __init__ (h : heap) : t * heap :=
  let '(d, h) := dict_new ∅ h in
  (mk 0 0 false None d, h).

(** [State.cleanup]: [self.done = False; return self.persist]. *)
Definition cleanup (self : t) : loc * t :=
  let self' := mk (start_time self) (current_time self) false
                  (next self) (persist self) in
  (persist self', self').

End State.

(** A screen class: a subclass of [State] that implements the two abstract
    methods.  [super] is the part of the object that [State] declares.  The
    drawing surface is not modelled: a method acts on its own object and on
    the dictionaries, and it returns. *)
Class Screen (Scr : Type) := {
  super : Scr → State.t;
  with_super : State.t → Scr → Scr;
  startup : Scr → Z → loc → heap → Scr * heap;
  update : Scr → keys_t → Z → heap → Scr * heap;
  super_with_super : ∀ b s, super (with_super b s) = b
}.

(** The inherited [cleanup] of a screen object. *)
Definition cleanup {Scr : Type} {SC : Screen Scr} (self : Scr) : loc * Scr :=
  let '(p, b) := State.cleanup (super self) in (p, with_super b self).

(** ** source/constants.py *)

(** The module of constants is imported as [c] by [main_menu.py].  The
    menu uses its names and never depends on their values, so the module
    is a parameter: any value of this record may stand for it. *)
Record constants := Constants {
  COIN_TOTAL : string;
  SCORE : string;
  LIVES : string;
  TOP_SCORE : string;
  CURRENT_TIME : string;
  LEVEL_NUM : string;
  PLAYER_NAME : string;
  PLAYER_MARIO : string;
  PLAYER_LUIGI : string;
  MAIN_MENU : string;
  LOAD_SCREEN : string;
  PLAYER1 : string;
  PLAYER2 : string
}.

(** The seven keys of the bundle that [Menu.__init__] builds. *)
Definition bundle_keys (c : constants) : list string :=
  [COIN_TOTAL c; SCORE c; LIVES c; TOP_SCORE c; CURRENT_TIME c;
   LEVEL_NUM c; PLAYER_NAME c].

(** ** states/main_menu.Menu *)

Module Menu.

(** A [Menu] object: the attributes of [State] and its own.  The
    attributes that only hold pictures ([background], [viewport],
    [image_dict], [player_list], [player_image], [player_rect],
    [overhead_info], the cursor's image and its [rect.x]) are left out;
    of the cursor sprite, [state] and [rect.y] are kept. *)
Record t := mk {
  parent : State.t;
  game_info : loc;
  player_index : Z;
  cursor_state : string;
  cursor_rect_y : Z;
  timer_start : Z
}.

Definition set_parent (b : State.t) (self : t) : t :=
  mk b (game_info self) (player_index self) (cursor_state self)
     (cursor_rect_y self) (timer_start self).
Definition set_game_info (g : loc) (self : t) : t :=
  mk (parent self) g (player_index self) (cursor_state self)
     (cursor_rect_y self) (timer_start self).
Definition set_player_index (i : Z) (self : t) : t :=
  mk (parent self) (game_info self) i (cursor_state self)
     (cursor_rect_y self) (timer_start self).
Definition set_cursor_state (s : string) (self : t) : t :=
  mk (parent self) (game_info self) (player_index self) s
     (cursor_rect_y self) (timer_start self).
Definition set_cursor_rect_y (y : Z) (self : t) : t :=
  mk (parent self) (game_info self) (player_index self) (cursor_state self)
     y (timer_start self).
Definition set_timer_start (ts : Z) (self : t) : t :=
  mk (parent self) (game_info self) (player_index self) (cursor_state self)
     (cursor_rect_y self) ts.

(** Assignments to the attributes inherited from [State]. *)
Definition set_current_time (ct : Z) (self : t) : t :=
  let b := parent self in
  set_parent (State.mk (State.start_time b) ct (State.done b)
                       (State.next b) (State.persist b)) self.
Definition set_done (d : bool) (self : t) : t :=
  let b := parent self in
  set_parent (State.mk (State.start_time b) (State.current_time b) d
                       (State.next b) (State.persist b)) self.
Definition set_next (n : ident) (self : t) : t :=
  let b := parent self in
  set_parent (State.mk (State.start_time b) (State.current_time b)
                       (State.done b) n (State.persist b)) self.
Definition set_persist (p : loc) (self : t) : t :=
  let b := parent self in
  set_parent (State.mk (State.start_time b) (State.current_time b)
                       (State.done b) (State.next b) p) self.

Section Methods.

Variable c : constants.

(** [setup_background] loads the pictures of the background and of the
    title and keeps the title in a container of pictures of its own,
    [image_dict].  Pictures and their containers are not modelled: the
    dictionaries of the embedding are those that hold game data. *)
Definition setup_background (self : t) : t := self.

(** [setup_player]: two pictures, and [self.player_index = 0]. *)
Definition setup_player (self : t) : t := set_player_index 0 self.

(** [setup_cursor]: a new sprite at [(220, 358)] in state [c.PLAYER1]. *)
Definition setup_cursor (self : t) : t :=
  set_cursor_state (PLAYER1 c) (set_cursor_rect_y 358 self).

Definition startup (self : t) (current_time : Z) (persist : loc)
    (h : heap) : t * heap :=
  let self := set_next (Some (LOAD_SCREEN c)) self in
  let self := set_persist persist self in
  let self := set_game_info persist self in
  let self := setup_background self in
  let self := setup_player self in
  let self := setup_cursor self in
  let self := set_timer_start current_time self in
  (self, h).

Definition reset_game_info (self : t) (h : heap) : t * heap :=
  let h := dict_set (game_info self) (COIN_TOTAL c) (VNum 0) h in
  let h := dict_set (game_info self) (SCORE c) (VNum 0) h in
  let h := dict_set (game_info self) (LIVES c) (VNum 3) h in
  let h := dict_set (game_info self) (CURRENT_TIME c) (VNum 0) h in
  let h := dict_set (game_info self) (LEVEL_NUM c) (VNum 1) h in
  (set_persist (game_info self) self, h).

Definition update_cursor (self : t) (keys : keys_t) (h : heap)
    : t * heap :=
  let '(self, h) :=
    if decide (cursor_state self = PLAYER1 c) then
      let self := set_cursor_rect_y 358 self in
      if keys K_DOWN then
        let self := set_cursor_state (PLAYER2 c) self in
        let self := set_player_index 1 self in
        (self, dict_set (game_info self) (PLAYER_NAME c)
                        (VStr (PLAYER_LUIGI c)) h)
      else (self, h)
    else if decide (cursor_state self = PLAYER2 c) then
      let self := set_cursor_rect_y 403 self in
      if keys K_UP then
        let self := set_cursor_state (PLAYER1 c) self in
        let self := set_player_index 0 self in
        (self, dict_set (game_info self) (PLAYER_NAME c)
                        (VStr (PLAYER_MARIO c)) h)
      else (self, h)
    else (self, h) in
  if keys K_RETURN then
    let '(self, h) := reset_game_info self h in
    (set_done true self, h)
  else (self, h).

(** [update]; the calls that draw ([blit], [overhead_info.update],
    [overhead_info.draw]) read the bundle and write the surface. *)
Definition update (self : t) (keys : keys_t) (current_time : Z)
    (h : heap) : t * heap :=
  let self := set_current_time current_time self in
  let h := dict_set (game_info self) (CURRENT_TIME c)
                    (VNum (State.current_time (parent self))) h in
  let '(self, h) := update_cursor self keys h in
  let elapsed_time := current_time - timer_start self in
  if 1000 <=? elapsed_time then
    let self := set_done true self in
    let self := set_next (Some (LOAD_SCREEN c)) self in
    (self, h)
  else (self, h).

(** The dictionary display of [__init__]; a key written twice keeps the
    later value, as in Python. *)
Definition initial_persist : bundle :=
  <[PLAYER_NAME c := VStr (PLAYER_MARIO c)]>
  (<[LEVEL_NUM c := VNum 1]>
  (<[CURRENT_TIME c := VNum 0]>
  (<[TOP_SCORE c := VNum 0]>
  (<[LIVES c := VNum 3]>
  (<[SCORE c := VNum 0]>
  (<[COIN_TOTAL c := VNum 0]> ∅)))))).

(** [Menu.__init__].  The attributes of [Menu] do not exist before
    [startup] assigns them; the record is filled with values that
    [startup] overwrites. *)
Definition __init__ (h : heap) : t * heap :=
  let '(b, h) := State.__init__ h in
  let '(persist, h) := dict_new initial_persist h in
  startup (mk b (State.persist b) 0 (PLAYER1 c) 358 0) 0 persist h.

#[global] Instance screen : Screen t := {
  super := parent;
  with_super := set_parent;
  startup := startup;
  update := update;
  super_with_super := λ _ _, eq_refl
}.

(** A run of [update] calls: one pair of key snapshot and time per
    frame. *)
Fixpoint updates (frames : list (keys_t * Z)) (self : t) (h : heap)
    : t * heap :=
  match frames with
  | [] => (self, h)
  | (keys, current_time) :: frames' =>
      let '(self, h) := update self keys current_time h in
      updates frames' self h
  end.

End Methods.

End Menu.

(** ** tools.Control *)

(** What a run can raise.  [KeyError] and [AttributeError] are Python's;
    [Dangling] is the answer of the embedding for a reference to no object,
    which no Python heap contains. *)
Inductive exn :=
| KeyError (k : ident)
| AttributeError (attr : string)
| Dangling (l : loc).

Inductive outcome (A : Type) :=
| Return (a : A)
| Raise (e : exn).
Arguments Return {A} a.
Arguments Raise {A} e.

(** The calls a run makes, in the order it makes them: to pygame, to the
    methods of a screen object, and the test of the [while] of
    [Control.main] with the value it read. *)
Inductive call :=
| pg_time_get_ticks
| pg_event_get
| pg_key_get_pressed
| pg_display_update
| clock_tick (fps : Z)
| state_cleanup (l : loc)
| state_startup (l : loc) (current_time : Z) (persist : loc)
| state_update (l : loc) (keys : keys_t) (current_time : Z)
| while_not_done (done : bool).

Module Control.

Record t := mk {
  done : bool;
  fps : Z;
  current_time : Z;
  keys : keys_t;
  state_dict : gmap ident loc;
  state_name : ident;
  state : option loc
}.

Definition set_done (d : bool) (self : t) : t :=
  mk d (fps self) (current_time self) (keys self) (state_dict self)
     (state_name self) (state self).
Definition set_current_time (ct : Z) (self : t) : t :=
  mk (done self) (fps self) ct (keys self) (state_dict self)
     (state_name self) (state self).
Definition set_keys (ks : keys_t) (self : t) : t :=
  mk (done self) (fps self) (current_time self) ks (state_dict self)
     (state_name self) (state self).
Definition set_state_dict (sd : gmap ident loc) (self : t) : t :=
  mk (done self) (fps self) (current_time self) (keys self) sd
     (state_name self) (state self).
Definition set_state_name (n : ident) (self : t) : t :=
  mk (done self) (fps self) (current_time self) (keys self)
     (state_dict self) n (state self).
Definition set_state (st : option loc) (self : t) : t :=
  mk (done self) (fps self) (current_time self) (keys self)
     (state_dict self) (state_name self) st.

(** [Control.__init__], given the snapshot [pg.key.get_pressed()]
    returns. *)
Definition __init__ (ks : keys_t) : t := mk false 60 0 ks ∅ None None.

Section Control.

Context {Scr : Type} {SC : Screen Scr}.

(** The controller, the screen objects and the dictionaries. *)
Record world := World {
  self : t;
  objs : gmap loc Scr;
  dicts : heap
}.

(** Computations over the world that may raise, with the calls made. *)
Definition M (A : Type) : Type := world → outcome A * world * list call.

#[global] Instance M_ret : MRet M := λ A a w, (Return a, w, []).
#[global] Instance M_bind : MBind M := λ A B f m w,
  match m w with
  | (Return a, w1, tr1) =>
      let '(r, w2, tr2) := f a w1 in (r, w2, tr1 ++ tr2)
  | (Raise e, w1, tr1) => (Raise e, w1, tr1)
  end.

Definition raise {A} (e : exn) : M A := λ w, (Raise e, w, []).
Definition log (c : call) : M unit := λ w, (Return (), w, [c]).
Definition get_self : M t := λ w, (Return (self w), w, []).
Definition modify_self (f : t → t) : M unit :=
  λ w, (Return (), World (f (self w)) (objs w) (dicts w), []).

Definition get_dicts : M heap := λ w, (Return (dicts w), w, []).
Definition put_dicts (h : heap) : M unit :=
  λ w, (Return (), World (self w) (objs w) h, []).
Definition put_obj (l : loc) (s : Scr) : M unit :=
  λ w, (Return (), World (self w) (<[l := s]> (objs w)) (dicts w), []).

(** [self.state.<attr>]: the active screen object; [None] has no
    attributes. *)
Definition self_state (attr : string) : M (loc * Scr) := λ w,
  match state (self w) with
  | None => (Raise (AttributeError attr), w, [])
  | Some l =>
      match objs w !! l with
      | Some s => (Return (l, s), w, [])
      | None => (Raise (Dangling l), w, [])
      end
  end.

(** [self.state.cleanup()]. *)
Definition call_cleanup : M loc :=
  '(l, s) ← self_state "cleanup";
  log (state_cleanup l);;
  let '(persist, s') := cleanup s in
  put_obj l s';;
  mret persist.

(** [self.state.startup(current_time, persist)]. *)
Definition call_startup (current_time : Z) (persist : loc) : M unit :=
  '(l, s) ← self_state "startup";
  log (state_startup l current_time persist);;
  h ← get_dicts;
  let '(s', h') := startup s current_time persist h in
  put_obj l s';;
  put_dicts h'.

(** [self.state.update(self.screen, keys, current_time)]. *)
Definition call_update (keys : keys_t) (current_time : Z) : M unit :=
  '(l, s) ← self_state "update";
  log (state_update l keys current_time);;
  h ← get_dicts;
  let '(s', h') := update s keys current_time h in
  put_obj l s';;
  put_dicts h'.

(** [self.state_dict[name]]. *)
Definition state_dict_getitem (name : ident) : M loc := λ w,
  match state_dict (self w) !! name with
  | Some l => (Return l, w, [])
  | None => (Raise (KeyError name), w, [])
  end.

Definition setup_states (state_dict : gmap ident loc)
    (start_state : ident) : M unit :=
  modify_self (set_state_dict state_dict);;
  modify_self (set_state_name start_state);;
  c ← get_self;
  l ← state_dict_getitem (state_name c);
  modify_self (set_state (Some l)).

Definition flip_state : M unit :=
  c ← get_self;
  '(_, s) ← self_state "next";
  let previous := state_name c in
  modify_self (set_state_name (State.next (super s)));;
  persist ← call_cleanup;
  c ← get_self;
  l ← state_dict_getitem (state_name c);
  modify_self (set_state (Some l));;
  c ← get_self;
  call_startup (current_time c) persist.

(** [update], given the value [pg.time.get_ticks()] returns. *)
Definition update (ticks : Z) : M unit :=
  log pg_time_get_ticks;;
  modify_self (set_current_time ticks);;
  '(_, s) ← self_state "done";
  (if State.done (super s) then flip_state else mret ());;
  c ← get_self;
  call_update (keys c) (current_time c).

Definition handle (ev : event) : M unit :=
  match type ev with
  | QUIT => modify_self (set_done true)
  | KEYDOWN => log pg_key_get_pressed;; modify_self (set_keys (pressed ev))
  | KEYUP => log pg_key_get_pressed;; modify_self (set_keys (pressed ev))
  | OTHER => mret ()
  end.

Fixpoint for_each (evs : list event) : M unit :=
  match evs with
  | [] => mret ()
  | ev :: evs' => handle ev;; for_each evs'
  end.

(** [event_loop], given the queue [pg.event.get()] returns. *)
Definition event_loop (evs : list event) : M unit :=
  log pg_event_get;;
  for_each evs.

(** What the environment supplies to one iteration of [main]: the
    queue of events and the clock. *)
Record frame := Frame { events : list event; ticks : Z }.

(** The body of the [while] of [main]. *)
Definition iteration (f : frame) : M unit :=
  event_loop (events f);;
  update (ticks f);;
  log pg_display_update;;
  c ← get_self;
  log (clock_tick (fps c)).

(** How a run of [main] over finitely many frames ends: the loop was
    left, or it waits for the next frame. *)
Inductive status := Left | Waiting.

Fixpoint main (frames : list frame) : M status :=
  c ← get_self;
  log (while_not_done (done c));;
  if done c then mret Left
  else match frames with
       | [] => mret Waiting
       | f :: frames' => iteration f;; main frames'
       end.

End Control.

Arguments world Scr : clear implicits.
Arguments M Scr : clear implicits.

End Control.

(** ** Sample data *)

(** A value for the module of constants, for running the definitions. *)
Definition sample : constants :=
  Constants "coin total" "score" "lives" "top score" "current time"
            "level num" "player name" "mario" "luigi" "main menu"
            "load screen" "1 PLAYER GAME" "2 PLAYER GAME".

(** The menu object and the dictionaries that [Menu.__init__] builds in an
    empty heap: the dictionary of [State.__init__] and the bundle. *)
Definition sample_menu : Menu.t :=
  Menu.mk (State.mk 0 0 false (Some "load screen") 2) 2 0 "1 PLAYER GAME"
          358 0.
Definition sample_heap : heap :=
  <[2%positive := Menu.initial_persist sample]> {[1%positive := ∅]}.

(** A second menu object, built after the first; it stands for the screen
    registered under the load-screen identifier. *)
Definition sample_menu2 : Menu.t :=
  Menu.mk (State.mk 0 0 false (Some "load screen") 4) 4 0 "1 PLAYER GAME"
          358 0.
Definition sample_heap2 : heap :=
  <[4%positive := Menu.initial_persist sample]>
    (<[3%positive := ∅]> sample_heap).

(** The first menu after a frame, at time 20, with the confirm key down. *)
Definition sample_menu_done : Menu.t :=
  Menu.mk (State.mk 0 20 true (Some "load screen") 2) 2 0 "1 PLAYER GAME"
          358 0.

Definition sample_registry : gmap ident loc :=
  <[Some "load screen" := 2%positive]> {[Some "main menu" := 1%positive]}.

(** A controller set up with the two screens, the first one active. *)
Definition sample_world : Control.world Menu.t :=
  Control.World
    (Control.mk false 60 0 no_keys sample_registry
                (Some "main menu") (Some 1%positive))
    (<[2%positive := sample_menu2]> {[1%positive := sample_menu]})
    sample_heap2.

(** The same after the frame with the confirm key: the active menu is
    done. *)
Definition sample_world_done : Control.world Menu.t :=
  Control.World
    (Control.mk false 60 20 (only K_RETURN) sample_registry
                (Some "main menu") (Some 1%positive))
    (<[2%positive := sample_menu2]> {[1%positive := sample_menu_done]})
    sample_heap2.

(** The same with a registry that lacks the load screen. *)
Definition sample_world_unregistered : Control.world Menu.t :=
  Control.World
    (Control.mk false 60 20 (only K_RETURN)
                {[Some "main menu" := 1%positive]}
                (Some "main menu") (Some 1%positive))
    (<[2%positive := sample_menu2]> {[1%positive := sample_menu_done]})
    sample_heap2.

(** ** Runs and observations used to state the properties *)

Section Runs.

Context {Scr : Type} {SC : Screen Scr}.

(** The active screen object, when [self.state] refers to one. *)
Definition active (w : Control.world Scr) : option Scr :=
  Control.state (Control.self w) ≫= λ l, Control.objs w !! l.

(** There is an active screen and its [done] flag is false. *)
Definition active_idle (w : Control.world Scr) : bool :=
  match active w with
  | Some s => negb (State.done (super s))
  | None => false
  end.

(** Every screen object other than the active one has [done] false: it
    was never activated, or [cleanup] was called when it was left. *)
Definition inactive_idle (w : Control.world Scr) : Prop :=
  ∀ l s, Control.objs w !! l = Some s →
         Control.state (Control.self w) ≠ Some l →
         State.done (super s) = false.

(** Consecutive calls of [Control.update], one per clock value. *)
Fixpoint updates (tickss : list Z) : Control.M Scr unit :=
  match tickss with
  | [] => mret ()
  | ticks :: tickss' => Control.update ticks;; updates tickss'
  end.

(** At the start of each of the calls of [updates tickss] the active
    screen is not done. *)
Fixpoint stays_idle (tickss : list Z) (w : Control.world Scr) : bool :=
  match tickss with
  | [] => true
  | ticks :: tickss' =>
      active_idle w && stays_idle tickss' (Control.update ticks w).1.2
  end.

(** A run of [update] calls on a screen object, one per frame, with the
    flags [done] and [next] that the controller can read after each. *)
Fixpoint observe (frames : list (keys_t * Z)) (s : Scr) (h : heap)
    : list (bool * ident) * Scr * heap :=
  match frames with
  | [] => ([], s, h)
  | (keys, current_time) :: frames' =>
      let '(s, h) := update s keys current_time h in
      let '(flags, s', h') := observe frames' s h in
      ((State.done (super s), State.next (super s)) :: flags, s', h')
  end.

(** One activation of a screen object: [startup], the frames, [cleanup].
    What comes out is what the rest of the program can see of it: the
    flags after each frame, the bundle that [cleanup] returns, and the
    dictionaries. *)
Definition lifecycle (s : Scr) (current_time : Z) (persist : loc)
    (frames : list (keys_t * Z)) (h : heap)
    : list (bool * ident) * loc * heap :=
  let '(s, h) := startup s current_time persist h in
  let '(flags, s, h) := observe frames s h in
  (flags, (cleanup s).1, h).

End Runs.

(** A menu object but for the two time stamps of [State], which [Menu]
    never reads before it has written them. *)
Definition but_clock (m : Menu.t) : Menu.t :=
  let b := Menu.parent m in
  Menu.set_parent
    (State.mk 0 0 (State.done b) (State.next b) (State.persist b)) m.

(** A call that is part of a transition. *)
Definition is_transition (c : call) : bool :=
  match c with
  | state_cleanup _ | state_startup _ _ _ => true
  | _ => false
  end.

Definition is_quit (ev : event) : bool :=
  match type ev with QUIT => true | _ => false end.

Definition is_key_event (ev : event) : bool :=
  match type ev with KEYDOWN | KEYUP => true | _ => false end.

(** The snapshot of the last key event of a queue, or else [ks]. *)
Definition last_pressed (ks : keys_t) (evs : list event) : keys_t :=
  fold_left (λ ks ev, if is_key_event ev then pressed ev else ks) evs ks.

(** One call of [pg.key.get_pressed()] for each key event of a queue. *)
Definition refreshes (evs : list event) : list call :=
  flat_map (λ ev, if is_key_event ev then [pg_key_get_pressed] else []) evs.

(** The calls that mark the steps of the main loop: the test of the
    [while], the start of [event_loop] and of [update], the presentation
    and the throttle. *)
Definition is_loop_step (c : call) : bool :=
  match c with
  | while_not_done _ | pg_event_get | pg_time_get_ticks
  | pg_display_update | clock_tick _ => true
  | _ => false
  end.

(** The number of iterations that a run over [frames] makes when it starts
    with the flag down and nothing is raised: up to and including the first
    frame that brings a [QUIT] event, or all of them. *)
Fixpoint iterations_until_quit (frames : list Control.frame) : nat :=
  match frames with
  | [] => 0
  | f :: frames' =>
      S (if existsb is_quit (Control.events f) then 0
         else iterations_until_quit frames')
  end.

(** The loop steps of [n] complete iterations. *)
Definition rounds (fps : Z) (n : nat) : list call :=
  concat (replicate n [while_not_done false; pg_event_get;
                       pg_time_get_ticks; pg_display_update;
                       clock_tick fps]).

(** ** tools.load_all_gfx *)

(** The function reads a directory and loads pictures.  What the operating
    system and pygame answer is taken as given: the listing of the
    directory is an argument, and the library functions are variables of
    the section.  A picture is a value of the type [surface]; [convert],
    [convert_alpha] and [set_colorkey] give the picture the call leaves. *)
Section Gfx.

Variable surface : Type.
Variable os_path_splitext : string → string * string.
Variable os_path_join : string → string → string.
Variable str_lower : string → string.
Variable pg_image_load : string → surface.
Variable get_alpha : surface → bool.
Variable convert_alpha : surface → surface.
Variable convert : surface → surface.
Variable set_colorkey : Z * Z * Z → surface → surface.

(** The body of the [if ext.lower() in accept]: the picture stored for the
    file [pic]. *)
Definition load_one (directory : string) (colorkey : Z * Z * Z)
    (pic : string) : surface :=
  let img := pg_image_load (os_path_join directory pic) in
  if get_alpha img then convert_alpha img
  else set_colorkey colorkey (convert img).

(** One turn of the [for pic in os.listdir(directory)]. *)
Definition load_step (directory : string) (colorkey : Z * Z * Z)
    (accept : list string) (graphics : gmap string surface) (pic : string)
    : gmap string surface :=
  let '(name, ext) := os_path_splitext pic in
  if decide (str_lower ext ∈ accept) then
    <[name := load_one directory colorkey pic]> graphics
  else graphics.

(** [load_all_gfx], given the list [os.listdir(directory)] returns. *)
Definition load_all_gfx (directory : string) (listing : list string)
    (colorkey : Z * Z * Z) (accept : list string) : gmap string surface :=
  fold_left (load_step directory colorkey accept) listing ∅.

(** The file [pic] has an accepted extension and the stem [name]. *)
Definition loads_as (accept : list string) (name : string) (pic : string)
    : bool :=
  bool_decide ((os_path_splitext pic).1 = name ∧
               str_lower (os_path_splitext pic).2 ∈ accept).

End Gfx.

(** The default arguments of [load_all_gfx]. *)
Definition default_colorkey : Z * Z * Z := (255, 0, 255).
Definition default_accept : list string := [".png"; ".jpg"; ".bmp"; ".gif"].

(** ** More observations *)

(** The active screen is the one registered under the active identifier. *)
Definition registered {Scr : Type} (w : Control.world Scr) : Prop :=
  ∃ l, Control.state (Control.self w) = Some l ∧
       Control.state_dict (Control.self w)
         !! Control.state_name (Control.self w) = Some l.

(** In a list of transition calls, each [cleanup] is followed at once by a
    [startup], and no [startup] comes without. *)
Fixpoint transitions_paired (tr : list call) : bool :=
  match tr with
  | [] => true
  | state_cleanup _ :: state_startup _ _ _ :: tr' => transitions_paired tr'
  | _ => false
  end.


(** The selection of the menu is one of the two that the sources set: the
    cursor on the first line with the first picture, or on the second line
    with the second. *)
Definition selection_ok (c : constants) (m : Menu.t) : Prop :=
  (Menu.cursor_state m = PLAYER1 c ∧ Menu.player_index m = 0) ∨
  (Menu.cursor_state m = PLAYER2 c ∧ Menu.player_index m = 1).

(** The six keys under which the methods of the menu write. *)
Definition written_keys (c : constants) : list string :=
  [COIN_TOTAL c; SCORE c; LIVES c; CURRENT_TIME c; LEVEL_NUM c;
   PLAYER_NAME c].

(** ** The loop written out over the calls of the screens *)

Section Written.

Context {Scr : Type} {SC : Screen Scr}.

(** The frame advance in the words of the specification: read the clock;
    if the active screen is done, make the transition (take its [next] as
    the active identifier, call [cleanup] on it, look the incoming screen up
    in the registry, call [startup] on it with the bundle that [cleanup]
    returned, make it the active screen); then call [update] once on the
    active screen.  It is written here over the world, with the calls it
    makes, to be compared with [Control.update]. *)
Definition frame_advance (ticks : Z) (w : Control.world Scr)
    : outcome unit * Control.world Scr * list call :=
  let c := Control.set_current_time ticks (Control.self w) in
  match Control.state (Control.self w) with
  | None =>
      (Raise (AttributeError "done"),
       Control.World c (Control.objs w) (Control.dicts w),
       [pg_time_get_ticks])
  | Some l =>
      match Control.objs w !! l with
      | None =>
          (Raise (Dangling l),
           Control.World c (Control.objs w) (Control.dicts w),
           [pg_time_get_ticks])
      | Some s =>
          if State.done (super s) then
            let persist := (cleanup s).1 in
            let objs1 := <[l := (cleanup s).2]> (Control.objs w) in
            let c1 := Control.set_state_name (State.next (super s)) c in
            match Control.state_dict (Control.self w)
                    !! State.next (super s) with
            | None =>
                (Raise (KeyError (State.next (super s))),
                 Control.World c1 objs1 (Control.dicts w),
                 [pg_time_get_ticks; state_cleanup l])
            | Some l' =>
                let c2 := Control.set_state (Some l') c1 in
                match objs1 !! l' with
                | None =>
                    (Raise (Dangling l'),
                     Control.World c2 objs1 (Control.dicts w),
                     [pg_time_get_ticks; state_cleanup l])
                | Some s' =>
                    let a := startup s' ticks persist (Control.dicts w) in
                    let u := update a.1 (Control.keys (Control.self w))
                                    ticks a.2 in
                    (Return (),
                     Control.World c2 (<[l' := u.1]> objs1) u.2,
                     [pg_time_get_ticks; state_cleanup l;
                      state_startup l' ticks persist;
                      state_update l' (Control.keys (Control.self w))
                                   ticks])
                end
            end
          else
            let u := update s (Control.keys (Control.self w)) ticks
                            (Control.dicts w) in
            (Return (),
             Control.World c (<[l := u.1]> (Control.objs w)) u.2,
             [pg_time_get_ticks;
              state_update l (Control.keys (Control.self w)) ticks])
      end
  end.

(** The world after the event sampling of a frame: the key snapshot of
    the last key event, and the flag raised by a [QUIT] event. *)
Definition sampled (f : Control.frame) (w : Control.world Scr)
    : Control.world Scr :=
  Control.World
    (Control.set_keys
       (last_pressed (Control.keys (Control.self w)) (Control.events f))
       (Control.set_done
          (Control.done (Control.self w)
           || existsb is_quit (Control.events f))
          (Control.self w)))
    (Control.objs w) (Control.dicts w).

(** The main loop in the words of the specification: test the flag, once,
    at the top; then, for a frame, the event sampling, the frame advance,
    the presentation and the throttle, in this order, and again.  It is
    written here over the world, with the calls it makes, to be compared
    with [Control.main]. *)
Fixpoint run_loop (frames : list Control.frame) (w : Control.world Scr)
    : outcome Control.status * Control.world Scr * list call :=
  if Control.done (Control.self w) then
    (Return Control.Left, w, [while_not_done true])
  else
    match frames with
    | [] => (Return Control.Waiting, w, [while_not_done false])
    | f :: frames' =>
        match frame_advance (Control.ticks f) (sampled f w) with
        | (Return _, w2, advance) =>
            let '(r, w', tr) := run_loop frames' w2 in
            (r, w',
             [while_not_done false] ++
             (pg_event_get :: refreshes (Control.events f)) ++
             advance ++
             [pg_display_update;
              clock_tick (Control.fps (Control.self w2))] ++
             tr)
        | (Raise e, w2, advance) =>
            (Raise e, w2,
             [while_not_done false] ++
             (pg_event_get :: refreshes (Control.events f)) ++
             advance)
        end
    end.

(** What the specification asks of [startup] and [update] for a screen to
    go through an activation like any other: up to [same], a relation
    between two states of a screen object, [startup] sets everything but
    the [done] flag anew, and [update] acts alike on states that are the
    same; states that are the same show the same flags and hold the same
    bundle. *)
Record reinitialises (same : Scr → Scr → Prop) : Prop := {
  same_flags : ∀ s s',
    same s s' →
    State.done (super s) = State.done (super s') ∧
    State.next (super s) = State.next (super s') ∧
    State.persist (super s) = State.persist (super s');
  same_startup : ∀ s s' current_time persist h,
    State.done (super s) = State.done (super s') →
    same (startup s current_time persist h).1
         (startup s' current_time persist h).1 ∧
    (startup s current_time persist h).2
      = (startup s' current_time persist h).2;
  same_update : ∀ s s' keys current_time h,
    same s s' →
    same (update s keys current_time h).1
         (update s' keys current_time h).1 ∧
    (update s keys current_time h).2 = (update s' keys current_time h).2
}.

End Written.

(** ** More sample data *)

(** The sample controller before [setup_states]. *)
Definition sample_world_boot : Control.world Menu.t :=
  Control.World (Control.__init__ no_keys)
    (<[2%positive := sample_menu2]> {[1%positive := sample_menu]})
    sample_heap2.

(** Three updates of the sample world: a quiet one, one after the timeout
    of the menu, and the one that makes the transition. *)
Definition sample_run : outcome unit * Control.world Menu.t * list call :=
  updates (SC := Menu.screen sample) [10; 1500; 1600] sample_world.

(** The frames of a session: a quiet frame, a frame in which the confirm
    key goes down, a frame with a [QUIT] event, and one more. *)
Definition sample_frames : list Control.frame :=
  [Control.Frame [] 10;
   Control.Frame [Event KEYDOWN (only K_RETURN)] 20;
   Control.Frame [Event QUIT no_keys] 30;
   Control.Frame [] 40].

Definition sample_session
    : outcome Control.status * Control.world Menu.t * list call :=
  Control.main (SC := Menu.screen sample) sample_frames sample_world.

(** A bundle that comes back to the menu with Luigi chosen. *)
Definition sample_heap_luigi : heap :=
  <[2%positive :=
      <["player name" := VStr "luigi"]> (Menu.initial_persist sample)]> ∅.

(** * Properties *)

Section ControlFacts.

Context {Scr : Type} {SC : Screen Scr}.

Implicit Types (w : Control.world Scr) (l : loc) (s : Scr).

(** *** Running the controller's operations *)

Ltac run_prims :=
  unfold mbind, mret, Control.M_bind, Control.M_ret, Control.log,
    Control.raise, Control.get_self, Control.modify_self,
    Control.get_dicts, Control.put_dicts, Control.put_obj; cbn.

Lemma bind_Return {A B} (m : Control.M Scr A) (f : A → Control.M Scr B)
    w a w1 tr1 :
  m w = (Return a, w1, tr1) →
  (m ≫= f) w = (let '(r, w2, tr2) := f a w1 in (r, w2, tr1 ++ tr2)).
Proof. intros Hm. unfold mbind, Control.M_bind. by rewrite Hm. Qed.

Lemma bind_Raise {A B} (m : Control.M Scr A) (f : A → Control.M Scr B)
    w e w1 tr1 :
  m w = (Raise e, w1, tr1) →
  (m ≫= f) w = (Raise e, w1, tr1).
Proof. intros Hm. unfold mbind, Control.M_bind. by rewrite Hm. Qed.

Lemma self_state_run attr w l s :
  Control.state (Control.self w) = Some l →
  Control.objs w !! l = Some s →
  Control.self_state attr w = (Return (l, s), w, []).
Proof. intros Hst Hl. unfold Control.self_state. by rewrite Hst, Hl. Qed.

Lemma call_cleanup_run w l s :
  Control.state (Control.self w) = Some l →
  Control.objs w !! l = Some s →
  Control.call_cleanup w =
    (Return (cleanup s).1,
     Control.World (Control.self w)
       (<[l := (cleanup s).2]> (Control.objs w)) (Control.dicts w),
     [state_cleanup l]).
Proof.
  intros Hst Hl. unfold Control.call_cleanup.
  rewrite (bind_Return _ _ _ _ _ _ (self_state_run _ _ _ _ Hst Hl)).
  run_prims. by destruct (cleanup s).
Qed.

Lemma call_startup_run w l s current_time persist :
  Control.state (Control.self w) = Some l →
  Control.objs w !! l = Some s →
  let a := startup s current_time persist (Control.dicts w) in
  Control.call_startup current_time persist w =
    (Return (),
     Control.World (Control.self w) (<[l := a.1]> (Control.objs w)) a.2,
     [state_startup l current_time persist]).
Proof.
  intros Hst Hl a. unfold Control.call_startup.
  rewrite (bind_Return _ _ _ _ _ _ (self_state_run _ _ _ _ Hst Hl)).
  run_prims. subst a. by destruct (startup s _ _ _).
Qed.

Lemma call_update_run w l s keys current_time :
  Control.state (Control.self w) = Some l →
  Control.objs w !! l = Some s →
  let u := update s keys current_time (Control.dicts w) in
  Control.call_update keys current_time w =
    (Return (),
     Control.World (Control.self w) (<[l := u.1]> (Control.objs w)) u.2,
     [state_update l keys current_time]).
Proof.
  intros Hst Hl u. unfold Control.call_update.
  rewrite (bind_Return _ _ _ _ _ _ (self_state_run _ _ _ _ Hst Hl)).
  run_prims. subst u. by destruct (update s _ _ _).
Qed.

(** A transition whose target is registered. *)
Lemma flip_state_run w l s l' s' :
  Control.state (Control.self w) = Some l →
  Control.objs w !! l = Some s →
  Control.state_dict (Control.self w) !! State.next (super s) = Some l' →
  <[l := (cleanup s).2]> (Control.objs w) !! l' = Some s' →
  let persist := (cleanup s).1 in
  let a := startup s' (Control.current_time (Control.self w)) persist
                   (Control.dicts w) in
  Control.flip_state w =
    (Return (),
     Control.World
       (Control.set_state (Some l')
          (Control.set_state_name (State.next (super s)) (Control.self w)))
       (<[l' := a.1]> (<[l := (cleanup s).2]> (Control.objs w)))
       a.2,
     [state_cleanup l;
      state_startup l' (Control.current_time (Control.self w)) persist]).
Proof.
  intros Hst Hl Hreg Hl' persist a. unfold Control.flip_state.
  rewrite (bind_Return _ _ _ _ _ _ eq_refl).
  rewrite (bind_Return _ _ _ _ _ _ (self_state_run _ _ _ _ Hst Hl)).
  rewrite (bind_Return _ _ _ _ _ _ eq_refl).
  erewrite (bind_Return Control.call_cleanup);
    [|by apply (call_cleanup_run _ l s)].
  rewrite (bind_Return _ _ _ _ _ _ eq_refl).
  erewrite (bind_Return (Control.state_dict_getitem _));
    [|unfold Control.state_dict_getitem; cbn; by rewrite Hreg].
  rewrite (bind_Return _ _ _ _ _ _ eq_refl).
  rewrite (bind_Return _ _ _ _ _ _ eq_refl).
  cbn. by erewrite (call_startup_run _ l' s').
Qed.

(** A transition whose target is not registered. *)
Lemma flip_state_raise w l s :
  Control.state (Control.self w) = Some l →
  Control.objs w !! l = Some s →
  Control.state_dict (Control.self w) !! State.next (super s) = None →
  Control.flip_state w =
    (Raise (KeyError (State.next (super s))),
     Control.World
       (Control.set_state_name (State.next (super s)) (Control.self w))
       (<[l := (cleanup s).2]> (Control.objs w))
       (Control.dicts w),
     [state_cleanup l]).
Proof.
  intros Hst Hl Hreg. unfold Control.flip_state.
  rewrite (bind_Return _ _ _ _ _ _ eq_refl).
  rewrite (bind_Return _ _ _ _ _ _ (self_state_run _ _ _ _ Hst Hl)).
  rewrite (bind_Return _ _ _ _ _ _ eq_refl).
  erewrite (bind_Return Control.call_cleanup);
    [|by apply (call_cleanup_run _ l s)].
  rewrite (bind_Return _ _ _ _ _ _ eq_refl).
  erewrite (bind_Raise (Control.state_dict_getitem _)); [done|].
  unfold Control.state_dict_getitem. cbn. by rewrite Hreg.
Qed.

(** C1.  When [Control.update] runs and the active screen is done, the
    transition comes first: the active identifier becomes the outgoing
    screen's [next], [cleanup] is called on the outgoing screen, the
    incoming screen is looked up in the registry and [startup] is called on
    it with the very bundle (the same reference) that [cleanup] returned,
    and only then [update] is called, once, on the new active screen. *)
Theorem update_transition_first w ticks l s l' s' :
  Control.state (Control.self w) = Some l →
  Control.objs w !! l = Some s →
  State.done (super s) = true →
  Control.state_dict (Control.self w) !! State.next (super s) = Some l' →
  <[l := (cleanup s).2]> (Control.objs w) !! l' = Some s' →
  let persist := (cleanup s).1 in
  let a := startup s' ticks persist (Control.dicts w) in
  let u := update a.1 (Control.keys (Control.self w)) ticks a.2 in
  Control.update ticks w =
    (Return (),
     Control.World
       (Control.set_state (Some l')
          (Control.set_state_name (State.next (super s))
             (Control.set_current_time ticks (Control.self w))))
       (<[l' := u.1]> (<[l := (cleanup s).2]> (Control.objs w)))
       u.2,
     [pg_time_get_ticks; state_cleanup l;
      state_startup l' ticks persist;
      state_update l' (Control.keys (Control.self w)) ticks]).
Proof.
  intros Hst Hl Hdone Hreg Hl' persist a u. unfold Control.update.
  rewrite (bind_Return _ _ _ _ _ _ eq_refl).
  rewrite (bind_Return _ _ _ _ _ _ eq_refl).
  erewrite (bind_Return (Control.self_state _));
    [|by apply (self_state_run _ _ l s)].
  cbn. rewrite Hdone.
  erewrite (bind_Return Control.flip_state);
    [|by apply (flip_state_run _ l s l' s')].
  rewrite (bind_Return _ _ _ _ _ _ eq_refl).
  cbn. erewrite (call_update_run _ l' a.1);
    [|done|cbn; by rewrite lookup_insert_eq].
  cbn. by rewrite insert_insert_eq.
Qed.

(** An update of a screen that is not done: no transition. *)
Lemma update_idle_run w ticks l s :
  Control.state (Control.self w) = Some l →
  Control.objs w !! l = Some s →
  State.done (super s) = false →
  let u := update s (Control.keys (Control.self w)) ticks
                  (Control.dicts w) in
  Control.update ticks w =
    (Return (),
     Control.World (Control.set_current_time ticks (Control.self w))
       (<[l := u.1]> (Control.objs w)) u.2,
     [pg_time_get_ticks;
      state_update l (Control.keys (Control.self w)) ticks]).
Proof.
  intros Hst Hl Hdone u. unfold Control.update.
  rewrite (bind_Return _ _ _ _ _ _ eq_refl).
  rewrite (bind_Return _ _ _ _ _ _ eq_refl).
  erewrite (bind_Return (Control.self_state _));
    [|by apply (self_state_run _ _ l s)].
  cbn. rewrite Hdone.
  rewrite (bind_Return _ _ _ _ _ _ eq_refl).
  rewrite (bind_Return _ _ _ _ _ _ eq_refl).
  cbn. by erewrite (call_update_run _ l s).
Qed.

Lemma active_idle_inv w :
  active_idle w = true →
  ∃ l s, Control.state (Control.self w) = Some l ∧
         Control.objs w !! l = Some s ∧
         State.done (super s) = false.
Proof.
  unfold active_idle, active. intros Hidle.
  destruct (Control.state (Control.self w)) as [l|]; [|done].
  cbn in Hidle. destruct (Control.objs w !! l) as [s|] eqn:Hl; [|done].
  exists l, s. by destruct (State.done (super s)).
Qed.

Lemma stays_idle_take tickss : ∀ w k,
  stays_idle tickss w = true → stays_idle (take k tickss) w = true.
Proof.
  induction tickss as [|ticks tickss IH]; intros w [|k] Hidle; try done.
  cbn in *. apply andb_prop in Hidle as [-> Hidle]. by apply IH.
Qed.

Lemma idle_updates_run tickss : ∀ w,
  stays_idle tickss w = true →
  ∃ w' tr,
    updates tickss w = (Return (), w', tr) ∧
    Control.state_name (Control.self w')
      = Control.state_name (Control.self w) ∧
    Control.state (Control.self w') = Control.state (Control.self w) ∧
    Forall (λ c, is_transition c = false) tr.
Proof.
  induction tickss as [|ticks tickss IH]; intros w Hidle.
  { exists w, []. by repeat split. }
  cbn in Hidle. apply andb_prop in Hidle as [Hnow Hidle].
  apply active_idle_inv in Hnow as (l & s & Hst & Hl & Hdone).
  pose proof (update_idle_run w ticks l s Hst Hl Hdone) as Hrun.
  cbn in Hrun. rewrite Hrun in Hidle. cbn in Hidle.
  destruct (IH _ Hidle) as (w' & tr & Hrest & Hname & Hstate & Htr).
  exists w', ([pg_time_get_ticks;
               state_update l (Control.keys (Control.self w)) ticks] ++ tr).
  split; [|split; [|split]].
  - cbn. rewrite (bind_Return _ _ _ _ _ _ Hrun). by rewrite Hrest.
  - by rewrite Hname.
  - by rewrite Hstate.
  - by repeat constructor.
Qed.

(** C2.  Over a sequence of updates at none of whose starts the active
    screen is done, the active identifier and the active screen stay what
    they were, after every update of the sequence, and no call of
    [cleanup] or [startup] is made. *)
Theorem idle_updates_keep_active tickss w :
  stays_idle tickss w = true →
  ∀ k, ∃ w' tr,
    updates (take k tickss) w = (Return (), w', tr) ∧
    Control.state_name (Control.self w')
      = Control.state_name (Control.self w) ∧
    Control.state (Control.self w') = Control.state (Control.self w) ∧
    Forall (λ c, is_transition c = false) tr.
Proof.
  intros Hidle k. apply idle_updates_run. by apply stays_idle_take.
Qed.

(** C4.  When the active screen is done and its [next] is not a key of
    the registry, the update raises [KeyError] with that identifier, at
    the lookup of the transition: [cleanup] has been called, [startup] and
    [update] are not.  Registering the same registry raised nothing. *)
Theorem unregistered_next_raises w ticks l s :
  Control.state (Control.self w) = Some l →
  Control.objs w !! l = Some s →
  State.done (super s) = true →
  Control.state_dict (Control.self w) !! State.next (super s) = None →
  Control.update ticks w =
    (Raise (KeyError (State.next (super s))),
     Control.World
       (Control.set_state_name (State.next (super s))
          (Control.set_current_time ticks (Control.self w)))
       (<[l := (cleanup s).2]> (Control.objs w))
       (Control.dicts w),
     [pg_time_get_ticks; state_cleanup l]) ∧
  ∀ (w0 : Control.world Scr) start_state l0,
    Control.state_dict (Control.self w) !! start_state = Some l0 →
    Control.setup_states (Control.state_dict (Control.self w))
                         start_state w0 =
      (Return (),
       Control.World
         (Control.set_state (Some l0)
            (Control.set_state_name start_state
               (Control.set_state_dict (Control.state_dict (Control.self w))
                  (Control.self w0))))
         (Control.objs w0) (Control.dicts w0),
       []).
Proof.
  intros Hst Hl Hdone Hreg. split.
  - unfold Control.update.
    rewrite (bind_Return _ _ _ _ _ _ eq_refl).
    rewrite (bind_Return _ _ _ _ _ _ eq_refl).
    erewrite (bind_Return (Control.self_state _));
      [|by apply (self_state_run _ _ l s)].
    cbn. rewrite Hdone.
    by erewrite (bind_Raise Control.flip_state);
      [|by apply (flip_state_raise _ l s)].
  - intros w0 start_state l0 Hstart. unfold Control.setup_states.
    rewrite (bind_Return _ _ _ _ _ _ eq_refl).
    rewrite (bind_Return _ _ _ _ _ _ eq_refl).
    rewrite (bind_Return _ _ _ _ _ _ eq_refl).
    erewrite (bind_Return (Control.state_dict_getitem _));
      [|unfold Control.state_dict_getitem; cbn; by rewrite Hstart].
    done.
Qed.

Lemma for_each_run evs : ∀ w,
  Control.for_each evs w =
    (Return (),
     Control.World
       (Control.set_keys
          (last_pressed (Control.keys (Control.self w)) evs)
          (Control.set_done
             (Control.done (Control.self w) || existsb is_quit evs)
             (Control.self w)))
       (Control.objs w) (Control.dicts w),
     refreshes evs).
Proof.
  induction evs as [|ev evs IH]; intros [[d f ct ks sd nm st] os ds].
  { cbn. by rewrite orb_false_r. }
  cbn [Control.for_each].
  assert (∃ w1 tr1,
    Control.handle ev (Control.World (Control.mk d f ct ks sd nm st) os ds)
      = (Return (), w1, tr1) ∧
    w1 = Control.World
           (Control.mk (d || is_quit ev) f ct
              (if is_key_event ev then pressed ev else ks) sd nm st)
           os ds ∧
    tr1 = if is_key_event ev then [pg_key_get_pressed] else [])
    as (w1 & tr1 & Hrun & -> & ->).
  { unfold Control.handle, is_quit, is_key_event.
    destruct (type ev); eexists _, _; (split; [reflexivity|]);
      cbn; by rewrite ?orb_true_r, ?orb_false_r. }
  rewrite (bind_Return _ _ _ _ _ _ Hrun), IH. cbn.
  by rewrite orb_assoc.
Qed.

Lemma event_loop_run evs w :
  Control.event_loop evs w =
    (Return (),
     Control.World
       (Control.set_keys
          (last_pressed (Control.keys (Control.self w)) evs)
          (Control.set_done
             (Control.done (Control.self w) || existsb is_quit evs)
             (Control.self w)))
       (Control.objs w) (Control.dicts w),
     pg_event_get :: refreshes evs).
Proof.
  unfold Control.event_loop.
  rewrite (bind_Return _ _ _ _ _ _ eq_refl).
  by rewrite for_each_run.
Qed.

(** C8.  One call of [event_loop] handles the whole queue: each
    [KEYDOWN] and each [KEYUP] event asks [pg.key.get_pressed()] again and
    stores the answer, so the snapshot kept is that of the last such
    event; and the controller's [done] flag is up at the end as soon as
    the queue holds a [QUIT] event. *)
Theorem event_loop_drains evs w :
  ∃ w' : Control.world Scr,
    Control.event_loop evs w =
      (Return (), w', pg_event_get :: refreshes evs) ∧
    Control.keys (Control.self w')
      = last_pressed (Control.keys (Control.self w)) evs ∧
    Control.done (Control.self w')
      = Control.done (Control.self w) || existsb is_quit evs ∧
    length (refreshes evs)
      = length (List.filter is_key_event evs) ∧
    (Control.state_name (Control.self w'), Control.state (Control.self w'),
     Control.objs w', Control.dicts w')
      = (Control.state_name (Control.self w), Control.state (Control.self w),
         Control.objs w, Control.dicts w).
Proof.
  eexists. split; [apply event_loop_run|]. cbn. repeat split.
  unfold refreshes. induction evs as [|ev evs IH]; [done|]. cbn.
  rewrite length_app, IH. by destruct (is_key_event ev).
Qed.

(** Whatever the world and whether or not it raises, [Control.update]
    asks the clock once, makes no other step of the main loop, and leaves
    the controller's [done] and [fps] alone. *)
Lemma update_steps ticks w :
  ∃ r w' tr,
    Control.update ticks w = (r, w', tr) ∧
    List.filter is_loop_step tr = [pg_time_get_ticks] ∧
    Control.done (Control.self w') = Control.done (Control.self w) ∧
    Control.fps (Control.self w') = Control.fps (Control.self w).
Proof.
  destruct w as [[d f ct ks sd nm st] os ds].
  unfold Control.update, Control.flip_state, Control.call_cleanup,
    Control.call_startup, Control.call_update, Control.self_state,
    Control.state_dict_getitem.
  run_prims.
  repeat (case_match; simplify_eq/=); eexists _, _, _; done.
Qed.

Lemma loop_steps_refreshes evs :
  List.filter is_loop_step (refreshes evs) = [].
Proof.
  unfold refreshes. induction evs as [|ev evs IH]; [done|]. cbn.
  rewrite List.filter_app, IH. by destruct (is_key_event ev).
Qed.

(** One iteration: the four steps in order when nothing is raised, and
    the first two when [update] raises. *)
Lemma iteration_steps f w :
  ∃ r w' tr,
    Control.iteration f w = (r, w', tr) ∧
    Control.done (Control.self w')
      = Control.done (Control.self w)
        || existsb is_quit (Control.events f) ∧
    Control.fps (Control.self w') = Control.fps (Control.self w) ∧
    List.filter is_loop_step tr =
      match r with
      | Return _ => [pg_event_get; pg_time_get_ticks; pg_display_update;
                     clock_tick (Control.fps (Control.self w))]
      | Raise _ => [pg_event_get; pg_time_get_ticks]
      end.
Proof.
  unfold Control.iteration.
  rewrite (bind_Return _ _ _ _ _ _ (event_loop_run _ _)).
  match goal with
  | |- context [(Control.update ?t ≫= _) ?w1] =>
      destruct (update_steps t w1) as (r & w2 & tr2 & Hrun & Htr & Hd & Hf)
  end.
  cbn in Hd, Hf. destruct r as [[]|e].
  - rewrite (bind_Return _ _ _ _ _ _ Hrun).
    rewrite (bind_Return _ _ _ _ _ _ eq_refl).
    rewrite (bind_Return _ _ _ _ _ _ eq_refl).
    cbn. eexists _, _, _. split; [done|]. split; [done|]. split; [done|].
    cbn [List.filter is_loop_step].
    rewrite List.filter_app, loop_steps_refreshes.
    cbn. rewrite List.filter_app, Htr. cbn. by rewrite Hf.
  - rewrite (bind_Raise _ _ _ _ _ _ Hrun).
    cbn. eexists _, _, _. split; [done|]. split; [done|]. split; [done|].
    cbn [List.filter is_loop_step].
    by rewrite List.filter_app, loop_steps_refreshes, Htr.
Qed.

Lemma main_steps frames : ∀ w,
  let n := if Control.done (Control.self w) then 0%nat
           else iterations_until_quit frames in
  let fps := Control.fps (Control.self w) in
  match Control.main frames w with
  | (Return Control.Left, w', tr) =>
      Control.done (Control.self w') = true ∧
      List.filter is_loop_step tr = rounds fps n ++ [while_not_done true]
  | (Return Control.Waiting, w', tr) =>
      Control.done (Control.self w') = false ∧
      n = length frames ∧
      List.filter is_loop_step tr = rounds fps n ++ [while_not_done false]
  | (Raise _, w', tr) =>
      ∃ k, (k < n)%nat ∧
      List.filter is_loop_step tr =
        rounds fps k ++ [while_not_done false; pg_event_get;
                         pg_time_get_ticks]
  end.
Proof.
  induction frames as [|f frames IH]; intros w n fps; subst n fps.
  - cbn. rewrite (bind_Return _ _ _ _ _ _ eq_refl).
    rewrite (bind_Return _ _ _ _ _ _ eq_refl).
    by destruct (Control.done (Control.self w)) eqn:Hd.
  - cbn [Control.main]. rewrite (bind_Return _ _ _ _ _ _ eq_refl).
    rewrite (bind_Return _ _ _ _ _ _ eq_refl).
    destruct (Control.done (Control.self w)) eqn:Hd; [done|].
    destruct (iteration_steps f w) as (r & w2 & tr2 & Hrun & Hd2 & Hf & Htr).
    rewrite Hd in Hd2. cbn in Hd2. destruct r as [[]|e].
    + rewrite (bind_Return _ _ _ _ _ _ Hrun).
      specialize (IH w2). cbn in IH. rewrite Hd2, Hf in IH.
      destruct (Control.main frames w2) as [[[[]|e] w3] tr3]; cbn.
      * destruct IH as [Hd3 Hsteps]. split; [done|].
        rewrite List.filter_app, Htr, Hsteps. done.
      * destruct IH as (Hd3 & Hn & Hsteps). split; [done|]. split.
        { by rewrite Hn. }
        rewrite List.filter_app, Htr, Hsteps. done.
      * destruct IH as (k & Hk & Hsteps). exists (S k). split; [lia|].
        rewrite List.filter_app, Htr, Hsteps. done.
    + rewrite (bind_Raise _ _ _ _ _ _ Hrun). cbn.
      exists 0%nat. split; [lia|]. by rewrite Htr.
Qed.

(** The controller keeps the screens it has left not done, so the screen
    a transition activates is not done when [startup] is called on it. *)
Lemma update_keeps_inactive_idle ticks w w' tr :
  Control.update ticks w = (Return (), w', tr) →
  inactive_idle w → inactive_idle w'.
Proof.
  destruct w as [[d f ct ks sd nm st] os ds].
  unfold Control.update, Control.flip_state, Control.call_cleanup,
    Control.call_startup, Control.call_update, Control.self_state,
    Control.state_dict_getitem, inactive_idle.
  run_prims. intros Hrun Hinv l0 s0.
  repeat (case_match; simplify_eq/=); intros Hl0 Hne.
  all: repeat (rewrite lookup_insert_ne in Hl0 by congruence).
  all: try (by eapply Hinv; [exact Hl0|congruence]).
  match type of Hl0 with
  | <[?a := _]> _ !! _ = _ => destruct (decide (a = l0)) as [->|Hal]
  end.
  - rewrite lookup_insert_eq in Hl0. simplify_eq.
    by rewrite super_with_super.
  - rewrite lookup_insert_ne in Hl0 by done.
    eapply Hinv; [done|congruence].
Qed.

Lemma transition_target_not_done w l s l' s' :
  inactive_idle w →
  Control.state (Control.self w) = Some l →
  <[l := (cleanup s).2]> (Control.objs w) !! l' = Some s' →
  State.done (super s') = false.
Proof.
  intros Hinv Hst Hl'. destruct (decide (l = l')) as [<-|Hne].
  - rewrite lookup_insert_eq in Hl'. simplify_eq. unfold cleanup. cbn.
    by rewrite super_with_super.
  - rewrite lookup_insert_ne in Hl' by done.
    eapply Hinv; [done|]. rewrite Hst. congruence.
Qed.

(** *** More of the controller *)

Lemma bind_Return_inv {A B} (m : Control.M Scr A) (f : A → Control.M Scr B)
    w b w' tr :
  (m ≫= f) w = (Return b, w', tr) →
  ∃ a w1 tr1 tr2,
    m w = (Return a, w1, tr1) ∧ f a w1 = (Return b, w', tr2) ∧
    tr = tr1 ++ tr2.
Proof.
  unfold mbind, Control.M_bind.
  destruct (m w) as [[[a|e] w1] tr1]; [|done].
  destruct (f a w1) as [[r w2] tr2] eqn:Hf. intros [= -> -> <-].
  by exists a, w1, tr1, tr2.
Qed.

(** The update of a done screen whose target is registered. *)
Lemma update_done_run w ticks l s l' s' :
  Control.state (Control.self w) = Some l →
  Control.objs w !! l = Some s →
  State.done (super s) = true →
  Control.state_dict (Control.self w) !! State.next (super s) = Some l' →
  <[l := (cleanup s).2]> (Control.objs w) !! l' = Some s' →
  let persist := (cleanup s).1 in
  let a := startup s' ticks persist (Control.dicts w) in
  let u := update a.1 (Control.keys (Control.self w)) ticks a.2 in
  Control.update ticks w =
    (Return (),
     Control.World
       (Control.set_state (Some l')
          (Control.set_state_name (State.next (super s))
             (Control.set_current_time ticks (Control.self w))))
       (<[l' := u.1]> (<[l := (cleanup s).2]> (Control.objs w)))
       u.2,
     [pg_time_get_ticks; state_cleanup l;
      state_startup l' ticks persist;
      state_update l' (Control.keys (Control.self w)) ticks]).
Proof.
  intros Hst Hl Hdone Hreg Hl' persist a u. unfold Control.update.
  rewrite (bind_Return _ _ _ _ _ _ eq_refl).
  rewrite (bind_Return _ _ _ _ _ _ eq_refl).
  erewrite (bind_Return (Control.self_state _));
    [|by apply (self_state_run _ _ l s)].
  cbn. rewrite Hdone.
  erewrite (bind_Return Control.flip_state);
    [|by apply (flip_state_run _ l s l' s')].
  rewrite (bind_Return _ _ _ _ _ _ eq_refl).
  cbn. erewrite (call_update_run _ l' a.1);
    [|done|cbn; by rewrite lookup_insert_eq].
  cbn. by rewrite insert_insert_eq.
Qed.

(** The update of a done screen whose target is not registered. *)
Lemma update_done_raise w ticks l s :
  Control.state (Control.self w) = Some l →
  Control.objs w !! l = Some s →
  State.done (super s) = true →
  Control.state_dict (Control.self w) !! State.next (super s) = None →
  Control.update ticks w =
    (Raise (KeyError (State.next (super s))),
     Control.World
       (Control.set_state_name (State.next (super s))
          (Control.set_current_time ticks (Control.self w)))
       (<[l := (cleanup s).2]> (Control.objs w))
       (Control.dicts w),
     [pg_time_get_ticks; state_cleanup l]).
Proof.
  intros Hst Hl Hdone Hreg. unfold Control.update.
  rewrite (bind_Return _ _ _ _ _ _ eq_refl).
  rewrite (bind_Return _ _ _ _ _ _ eq_refl).
  erewrite (bind_Return (Control.self_state _));
    [|by apply (self_state_run _ _ l s)].
  cbn. rewrite Hdone.
  by erewrite (bind_Raise Control.flip_state);
    [|by apply (flip_state_raise _ l s)].
Qed.

(** X1.  [setup_states] with a start identifier that is not a key of the
    registry raises [KeyError] with that identifier; the registry and the
    identifier have been stored by then, and [self.state] is what it was. *)
Theorem setup_states_unregistered_start
    (sd : gmap ident loc) (start_state : ident) w :
  sd !! start_state = None →
  Control.setup_states sd start_state w =
    (Raise (KeyError start_state),
     Control.World
       (Control.set_state_name start_state
          (Control.set_state_dict sd (Control.self w)))
       (Control.objs w) (Control.dicts w),
     []).
Proof.
  intros Hstart. unfold Control.setup_states.
  rewrite (bind_Return _ _ _ _ _ _ eq_refl).
  rewrite (bind_Return _ _ _ _ _ _ eq_refl).
  rewrite (bind_Return _ _ _ _ _ _ eq_refl).
  erewrite (bind_Raise (Control.state_dict_getitem _)); [done|].
  unfold Control.state_dict_getitem. cbn. by rewrite Hstart.
Qed.


Lemma update_keeps_registered ticks w w' tr :
  Control.update ticks w = (Return (), w', tr) →
  registered w → registered w'.
Proof.
  destruct w as [[d f ct ks sd nm st] os ds].
  unfold Control.update, Control.flip_state, Control.call_cleanup,
    Control.call_startup, Control.call_update, Control.self_state,
    Control.state_dict_getitem, registered.
  run_prims. intros Hrun (l0 & Hst & Hreg).
  repeat (case_match; simplify_eq/=); eauto.
Qed.

(** X2.  Once [setup_states] has returned, the active screen is the one
    registered under the active identifier, and it stays so through every
    run of updates that returns, transitions included. *)
Theorem controller_stays_registered
    (sd : gmap ident loc) (start_state : ident) w0 w tr0 tickss w' tr :
  Control.setup_states sd start_state w0 = (Return (), w, tr0) →
  updates tickss w = (Return (), w', tr) →
  registered w'.
Proof.
  intros Hsetup Hrun. assert (registered w) as Hreg.
  { unfold Control.setup_states in Hsetup.
    rewrite (bind_Return _ _ _ _ _ _ eq_refl) in Hsetup.
    rewrite (bind_Return _ _ _ _ _ _ eq_refl) in Hsetup.
    rewrite (bind_Return _ _ _ _ _ _ eq_refl) in Hsetup.
    unfold Control.state_dict_getitem, mbind, Control.M_bind in Hsetup.
    cbn in Hsetup. destruct (sd !! start_state) as [l|] eqn:Hl; [|done].
    cbn in Hsetup. simplify_eq. exists l. by cbn. }
  clear Hsetup. revert w tr Hreg Hrun.
  induction tickss as [|ticks tickss IH]; intros w tr Hreg Hrun.
  { cbn in Hrun. unfold mret, Control.M_ret in Hrun. by simplify_eq. }
  cbn in Hrun.
  apply bind_Return_inv in Hrun as ([] & w1 & tr1 & tr2 & Hone & Hrest & _).
  eapply IH; [|exact Hrest]. by eapply update_keeps_registered.
Qed.

(** X3.  A transition that fails leaves the controller between two
    screens: the active identifier is the unregistered one, the active
    screen is still the old one, and [cleanup] has lowered its [done] flag.
    So if the [KeyError] is caught, the next update raises nothing and runs
    the old screen again. *)
Theorem failed_transition_then_update w ticks ticks2 l s :
  Control.state (Control.self w) = Some l →
  Control.objs w !! l = Some s →
  State.done (super s) = true →
  Control.state_dict (Control.self w) !! State.next (super s) = None →
  let w1 := (Control.update ticks w).1.2 in
  Control.state_dict (Control.self w1)
    !! Control.state_name (Control.self w1) = None ∧
  Control.state (Control.self w1) = Some l ∧
  Control.objs w1 !! l = Some (cleanup s).2 ∧
  ∃ w2,
    Control.update ticks2 w1 =
      (Return (), w2,
       [pg_time_get_ticks;
        state_update l (Control.keys (Control.self w)) ticks2]) ∧
    Control.state_name (Control.self w2) = State.next (super s).
Proof.
  intros Hst Hl Hdone Hreg w1. subst w1.
  rewrite (update_done_raise w ticks l s) by done.
  cbn [fst snd].
  set (w1 := Control.World _ _ _).
  assert (Control.objs w1 !! l = Some (cleanup s).2) as Hl1
    by apply lookup_insert_eq.
  assert (State.done (super (cleanup s).2) = false) as Hdone1.
  { unfold cleanup. cbn. by rewrite super_with_super. }
  pose proof (update_idle_run w1 ticks2 l (cleanup s).2 Hst Hl1 Hdone1)
    as Hrun.
  split; [done|]. split; [done|]. split; [done|].
  eexists. split; [exact Hrun|done].
Qed.

(** X4.  Before [setup_states] there is no active screen: an update reads
    the clock, stores it and raises [AttributeError]. *)
Theorem update_before_setup w ticks :
  Control.state (Control.self w) = None →
  Control.update ticks w =
    (Raise (AttributeError "done"),
     Control.World (Control.set_current_time ticks (Control.self w))
                   (Control.objs w) (Control.dicts w),
     [pg_time_get_ticks]).
Proof.
  intros Hst. unfold Control.update.
  rewrite (bind_Return _ _ _ _ _ _ eq_refl).
  rewrite (bind_Return _ _ _ _ _ _ eq_refl).
  erewrite (bind_Raise (Control.self_state _)); [done|].
  unfold Control.self_state. cbn. by rewrite Hst.
Qed.

Lemma transitions_paired_app tr1 tr2 :
  transitions_paired tr1 = true → transitions_paired tr2 = true →
  transitions_paired (tr1 ++ tr2) = true.
Proof.
  revert tr2. induction tr1 as [tr1 IH] using (induction_ltof1 _ length).
  intros tr2 H1 H2. destruct tr1 as [|[] [|[] tr1]]; try done.
  cbn in *. apply IH; [unfold ltof; cbn; lia|done|done].
Qed.


(** X6.  Through every run of updates that returns, each screen other than
    the active one has [done] false: a screen is never left with the flag
    up, so the screen a later transition activates starts with it down. *)
Theorem left_screens_not_done tickss : ∀ w w' tr,
  inactive_idle w →
  updates tickss w = (Return (), w', tr) →
  inactive_idle w'.
Proof.
  induction tickss as [|ticks tickss IH]; intros w w' tr Hinv Hrun.
  { cbn in Hrun. unfold mret, Control.M_ret in Hrun. by simplify_eq. }
  cbn in Hrun.
  apply bind_Return_inv in Hrun as ([] & w1 & tr1 & tr2 & Hone & Hrest & _).
  eapply IH; [|exact Hrest]. by eapply update_keeps_inactive_idle.
Qed.

(** X7.  Nothing but a [QUIT] event ends the loop: when [main] is left,
    the flag was up at the start or one of the frames held a [QUIT]
    event.  No screen and no transition raises the flag. *)
Theorem main_left_only_by_quit frames : ∀ w w' tr,
  Control.main frames w = (Return Control.Left, w', tr) →
  Control.done (Control.self w) = true ∨
  Exists (λ f, existsb is_quit (Control.events f) = true) frames.
Proof.
  induction frames as [|f frames IH]; intros w w' tr Hrun.
  - cbn in Hrun. rewrite (bind_Return _ _ _ _ _ _ eq_refl) in Hrun.
    rewrite (bind_Return _ _ _ _ _ _ eq_refl) in Hrun.
    destruct (Control.done (Control.self w)); [by left|done].
  - cbn [Control.main] in Hrun.
    rewrite (bind_Return _ _ _ _ _ _ eq_refl) in Hrun.
    rewrite (bind_Return _ _ _ _ _ _ eq_refl) in Hrun.
    destruct (Control.done (Control.self w)) eqn:Hd; [by left|]. right.
    destruct (iteration_steps f w) as (r & w2 & tr2 & Hit & Hd2 & _ & _).
    rewrite Hd in Hd2. cbn in Hd2. destruct r as [[]|e].
    + rewrite (bind_Return _ _ _ _ _ _ Hit) in Hrun.
      destruct (Control.main frames w2) as [[r3 w3] tr3] eqn:Hrest.
      cbn in Hrun. simplify_eq.
      destruct (IH _ _ _ Hrest) as [Hdone|Hlater].
      * apply Exists_cons_hd. by rewrite <- Hd2.
      * by apply Exists_cons_tl.
    + by rewrite (bind_Raise _ _ _ _ _ _ Hit) in Hrun.
Qed.

Lemma last_pressed_app ks evs1 evs2 :
  last_pressed ks (evs1 ++ evs2) = last_pressed (last_pressed ks evs1) evs2.
Proof. unfold last_pressed. by rewrite fold_left_app. Qed.

(** X8.  Handling a queue in two calls of [event_loop] or in one comes to
    the same: the same key snapshot and the same [done] flag.  Events that
    come after a [QUIT] event are handled like the others. *)
Theorem event_loop_split evs1 evs2 w :
  ((Control.event_loop evs1 ≫= λ _, Control.event_loop evs2) w).1
  = (Control.event_loop (evs1 ++ evs2) w).1.
Proof.
  rewrite (bind_Return _ _ _ _ _ _ (event_loop_run evs1 w)).
  rewrite !event_loop_run. cbn.
  by rewrite last_pressed_app, existsb_app, orb_assoc.
Qed.

(** X9.  The keys a screen is given are those of the same iteration: the
    snapshot that [event_loop] has just stored, which is that of the last
    key event of the queue and the earlier snapshot when the queue holds
    none.  A [QUIT] event in the queue does not stop the screen from being
    updated and presented in that iteration. *)
Theorem iteration_passes_keys f w l s :
  Control.state (Control.self w) = Some l →
  Control.objs w !! l = Some s →
  State.done (super s) = false →
  let ks := last_pressed (Control.keys (Control.self w)) (Control.events f) in
  let u := update s ks (Control.ticks f) (Control.dicts w) in
  Control.iteration f w =
    (Return (),
     Control.World
       (Control.set_current_time (Control.ticks f)
          (Control.set_keys ks
             (Control.set_done
                (Control.done (Control.self w)
                 || existsb is_quit (Control.events f))
                (Control.self w))))
       (<[l := u.1]> (Control.objs w)) u.2,
     pg_event_get :: refreshes (Control.events f) ++
     [pg_time_get_ticks; state_update l ks (Control.ticks f);
      pg_display_update; clock_tick (Control.fps (Control.self w))]).
Proof.
  intros Hst Hl Hdone ks u. unfold Control.iteration.
  rewrite (bind_Return _ _ _ _ _ _ (event_loop_run _ _)).
  erewrite (bind_Return (Control.update _));
    [|by apply (update_idle_run _ _ l s)].
  rewrite (bind_Return _ _ _ _ _ _ eq_refl).
  rewrite (bind_Return _ _ _ _ _ _ eq_refl).
  by cbn.
Qed.

(** X10.  An exception of a transition escapes [main]: with the active
    screen done and its [next] unregistered, the first iteration raises the
    [KeyError] after [cleanup], without presenting the frame.  A [QUIT]
    event in that frame raises the flag and changes nothing to that. *)
Theorem main_raises_key_error f frames w l s :
  Control.done (Control.self w) = false →
  Control.state (Control.self w) = Some l →
  Control.objs w !! l = Some s →
  State.done (super s) = true →
  Control.state_dict (Control.self w) !! State.next (super s) = None →
  ∃ w',
    Control.main (f :: frames) w =
      (Raise (KeyError (State.next (super s))), w',
       while_not_done false :: pg_event_get ::
         refreshes (Control.events f) ++
         [pg_time_get_ticks; state_cleanup l]) ∧
    Control.done (Control.self w') = existsb is_quit (Control.events f).
Proof.
  intros Hd Hst Hl Hdone Hreg. eexists. split.
  - cbn [Control.main]. rewrite (bind_Return _ _ _ _ _ _ eq_refl).
    rewrite (bind_Return _ _ _ _ _ _ eq_refl). rewrite Hd.
    erewrite (bind_Raise (Control.iteration f)); [done|].
    unfold Control.iteration.
    rewrite (bind_Return _ _ _ _ _ _ (event_loop_run _ _)).
    erewrite (bind_Raise (Control.update _)); [done|].
    by apply (update_done_raise _ _ l s).
  - cbn. by rewrite Hd.
Qed.

(** X11.  Runs of [main] compose: when the run over the first frames ends
    waiting, the run over more frames goes on from there; its calls are
    those of the first run, whose last test is the first of the rest,
    followed by those of the rest. *)
Theorem main_app frames1 frames2 : ∀ w w1 tr1,
  Control.main frames1 w = (Return Control.Waiting, w1, tr1) →
  ∃ tr0,
    tr1 = tr0 ++ [while_not_done false] ∧
    Control.main (frames1 ++ frames2) w =
      (let '(r, w2, tr2) := Control.main frames2 w1 in (r, w2, tr0 ++ tr2)).
Proof.
  induction frames1 as [|f frames1 IH]; intros w w1 tr1 Hrun.
  - cbn in Hrun. rewrite (bind_Return _ _ _ _ _ _ eq_refl) in Hrun.
    rewrite (bind_Return _ _ _ _ _ _ eq_refl) in Hrun.
    destruct (Control.done (Control.self w)) eqn:Hd; [done|].
    unfold mret, Control.M_ret in Hrun. cbn in Hrun. simplify_eq.
    exists []. split; [done|]. cbn [app].
    by destruct (Control.main frames2 w1) as [[r w2] tr2].
  - cbn [Control.main app] in *.
    rewrite (bind_Return _ _ _ _ _ _ eq_refl) in Hrun.
    rewrite (bind_Return _ _ _ _ _ _ eq_refl) in Hrun.
    rewrite (bind_Return _ _ _ _ _ _ eq_refl).
    rewrite (bind_Return _ _ _ _ _ _ eq_refl).
    destruct (Control.done (Control.self w)) eqn:Hd; [done|].
    destruct (Control.iteration f w) as [[[[]|e] wi] tri] eqn:Hit.
    + rewrite (bind_Return _ _ _ _ _ _ Hit) in Hrun.
      rewrite (bind_Return _ _ _ _ _ _ Hit).
      destruct (Control.main frames1 wi) as [[r3 w3] tr3] eqn:Hrest.
      cbn in Hrun. simplify_eq.
      destruct (IH _ _ _ Hrest) as (tr0 & -> & Happ).
      exists ([while_not_done false] ++ tri ++ tr0).
      split; [by rewrite <- !app_assoc|].
      rewrite Happ. destruct (Control.main frames2 w1) as [[r w2] tr2].
      cbn. by rewrite <- !app_assoc.
    + by rewrite (bind_Raise _ _ _ _ _ _ Hit) in Hrun.
Qed.

(** *** The loop and the frame advance, written out *)

Lemma self_state_dangling attr w l :
  Control.state (Control.self w) = Some l →
  Control.objs w !! l = None →
  Control.self_state attr w = (Raise (Dangling l), w, []).
Proof. intros Hst Hl. unfold Control.self_state. by rewrite Hst, Hl. Qed.

(** A transition whose target is registered and refers to no object. *)
Lemma flip_state_dangling w l s l' :
  Control.state (Control.self w) = Some l →
  Control.objs w !! l = Some s →
  Control.state_dict (Control.self w) !! State.next (super s) = Some l' →
  <[l := (cleanup s).2]> (Control.objs w) !! l' = None →
  Control.flip_state w =
    (Raise (Dangling l'),
     Control.World
       (Control.set_state (Some l')
          (Control.set_state_name (State.next (super s)) (Control.self w)))
       (<[l := (cleanup s).2]> (Control.objs w))
       (Control.dicts w),
     [state_cleanup l]).
Proof.
  intros Hst Hl Hreg Hl'. unfold Control.flip_state.
  rewrite (bind_Return _ _ _ _ _ _ eq_refl).
  rewrite (bind_Return _ _ _ _ _ _ (self_state_run _ _ _ _ Hst Hl)).
  rewrite (bind_Return _ _ _ _ _ _ eq_refl).
  erewrite (bind_Return Control.call_cleanup);
    [|by apply (call_cleanup_run _ l s)].
  rewrite (bind_Return _ _ _ _ _ _ eq_refl).
  erewrite (bind_Return (Control.state_dict_getitem _));
    [|unfold Control.state_dict_getitem; cbn; by rewrite Hreg].
  rewrite (bind_Return _ _ _ _ _ _ eq_refl).
  rewrite (bind_Return _ _ _ _ _ _ eq_refl).
  unfold Control.call_startup.
  erewrite (bind_Raise (Control.self_state _)); [done|].
  by apply self_state_dangling.
Qed.

(** [Control.update] is the frame advance of the specification. *)
Lemma update_frame_advance ticks w :
  Control.update ticks w = frame_advance ticks w.
Proof.
  unfold frame_advance.
  destruct (Control.state (Control.self w)) as [l|] eqn:Hst.
  - destruct (Control.objs w !! l) as [s|] eqn:Hl.
    + destruct (State.done (super s)) eqn:Hdone.
      * destruct (Control.state_dict (Control.self w)
                    !! State.next (super s)) as [l'|] eqn:Hreg.
        -- destruct (<[l := (cleanup s).2]> (Control.objs w) !! l')
             as [s'|] eqn:Hl'.
           ++ by apply update_done_run.
           ++ unfold Control.update.
              rewrite (bind_Return _ _ _ _ _ _ eq_refl).
              rewrite (bind_Return _ _ _ _ _ _ eq_refl).
              erewrite (bind_Return (Control.self_state _));
                [|by apply (self_state_run _ _ l s)].
              cbn. rewrite Hdone.
              by erewrite (bind_Raise Control.flip_state);
                [|by apply (flip_state_dangling _ l s l')].
        -- by apply update_done_raise.
      * by apply update_idle_run.
    + unfold Control.update.
      rewrite (bind_Return _ _ _ _ _ _ eq_refl).
      rewrite (bind_Return _ _ _ _ _ _ eq_refl).
      by erewrite (bind_Raise (Control.self_state _));
        [|by apply (self_state_dangling _ _ l)].
  - unfold Control.update.
    rewrite (bind_Return _ _ _ _ _ _ eq_refl).
    rewrite (bind_Return _ _ _ _ _ _ eq_refl).
    erewrite (bind_Raise (Control.self_state _)); [done|].
    unfold Control.self_state. cbn. by rewrite Hst.
Qed.

(** [Control.main] is the loop of the specification. *)
Lemma main_run_loop frames : ∀ w,
  Control.main frames w = run_loop frames w.
Proof.
  induction frames as [|f frames IH]; intros w.
  - cbn. rewrite (bind_Return _ _ _ _ _ _ eq_refl).
    rewrite (bind_Return _ _ _ _ _ _ eq_refl).
    by destruct (Control.done (Control.self w)).
  - cbn [Control.main run_loop].
    rewrite (bind_Return _ _ _ _ _ _ eq_refl).
    rewrite (bind_Return _ _ _ _ _ _ eq_refl).
    destruct (Control.done (Control.self w)) eqn:Hd; [done|].
    unfold Control.iteration.
    destruct (frame_advance (Control.ticks f) (sampled f w))
      as [[[[]|e] w2] advance] eqn:Hadv.
    + erewrite (bind_Return (_ ≫= _)).
      2:{ rewrite (bind_Return _ _ _ _ _ _ (event_loop_run _ _)).
          erewrite (bind_Return (Control.update _));
            [|rewrite update_frame_advance; exact Hadv].
          rewrite (bind_Return _ _ _ _ _ _ eq_refl).
          rewrite (bind_Return _ _ _ _ _ _ eq_refl).
          reflexivity. }
      rewrite IH. destruct (run_loop frames w2) as [[r w'] tr].
      cbn. by rewrite <- !app_assoc.
    + erewrite (bind_Raise (_ ≫= _)); [done|].
      rewrite (bind_Return _ _ _ _ _ _ (event_loop_run _ _)).
      erewrite (bind_Raise (Control.update _)); [done|].
      rewrite update_frame_advance. exact Hadv.
Qed.

(** C9.  [Control.main] is the loop of the specification, call for call:
    each iteration tests the flag once, at the top, then makes the event
    sampling, the frame advance (the transition when the active screen is
    done, then one update of the active screen), the presentation and the
    throttle, in this order.  With the flag up it makes no iteration at
    all.  With the flag down it leaves the loop after the iteration of the
    first frame that brings a [QUIT] event, that iteration being complete,
    or else it goes through all the frames; an iteration is only cut short
    by an exception that the frame advance raises. *)
Theorem main_loop_order frames w :
  Control.main frames w = run_loop frames w ∧
  (if Control.done (Control.self w) then
    Control.main frames w = (Return Control.Left, w, [while_not_done true])
  else
    let n := iterations_until_quit frames in
    let fps := Control.fps (Control.self w) in
    match Control.main frames w with
    | (Return Control.Left, w', tr) =>
        Control.done (Control.self w') = true ∧
        List.filter is_loop_step tr = rounds fps n ++ [while_not_done true]
    | (Return Control.Waiting, w', tr) =>
        Control.done (Control.self w') = false ∧
        n = length frames ∧
        List.filter is_loop_step tr
          = rounds fps n ++ [while_not_done false]
    | (Raise _, w', tr) =>
        ∃ k, (k < n)%nat ∧
        List.filter is_loop_step tr =
          rounds fps k ++ [while_not_done false; pg_event_get;
                           pg_time_get_ticks]
    end).
Proof.
  split; [apply main_run_loop|].
  pose proof (main_steps frames w) as Hsteps. cbn in Hsteps.
  destruct (Control.done (Control.self w)) eqn:Hd; [|done].
  destruct frames; cbn;
    rewrite (bind_Return _ _ _ _ _ _ eq_refl);
    rewrite (bind_Return _ _ _ _ _ _ eq_refl); by rewrite Hd.
Qed.

(** *** Activations of a screen that sets itself anew *)

Lemma observe_same (same : Scr → Scr → Prop) frames :
  reinitialises same →
  ∀ s s' h,
    same s s' →
    (observe frames s h).1.1 = (observe frames s' h).1.1 ∧
    same (observe frames s h).1.2 (observe frames s' h).1.2 ∧
    (observe frames s h).2 = (observe frames s' h).2.
Proof.
  intros Hre. induction frames as [|[ks t] frames IH]; intros s s' h Hsame;
    [done|].
  cbn. destruct (same_update same Hre s s' ks t h Hsame) as [Hsame1 Hh1].
  destruct (update s ks t h) as [s1 h1].
  destruct (update s' ks t h) as [s1' h1']. cbn in Hsame1, Hh1. subst h1'.
  destruct (IH s1 s1' h1 Hsame1) as (Hfl & Hsame2 & Hh2).
  destruct (same_flags same Hre s1 s1' Hsame1) as (Hd & Hn & _).
  destruct (observe frames s1 h1) as [[fl s2] h2].
  destruct (observe frames s1' h1) as [[fl' s2'] h2'].
  cbn in *. by rewrite Hfl, Hd, Hn, Hh2.
Qed.

Lemma reactivation_same (same : Scr → Scr → Prop) s s' T p frames h :
  reinitialises same →
  let a := startup (cleanup s).2 T p h in
  let a' := startup (cleanup s').2 T p h in
  let o := observe frames a.1 a.2 in
  let o' := observe frames a'.1 a'.2 in
  o.1.1 = o'.1.1 ∧ same o.1.2 o'.1.2 ∧ o.2 = o'.2 ∧
  lifecycle (cleanup s).2 T p frames h
  = lifecycle (cleanup s').2 T p frames h.
Proof.
  intros Hre a a' o o'.
  assert (State.done (super (cleanup s).2)
          = State.done (super (cleanup s').2)) as Hdone.
  { unfold cleanup. cbn. by rewrite !super_with_super. }
  destruct (same_startup same Hre _ _ T p h Hdone) as [Hsame Hh].
  fold a a' in Hsame, Hh.
  assert (o.1.1 = o'.1.1 ∧ same o.1.2 o'.1.2 ∧ o.2 = o'.2)
    as (Hfl & Hsame2 & Hh2).
  { subst o o'. rewrite <- Hh. by apply observe_same. }
  split; [done|]. split; [done|]. split; [done|].
  unfold lifecycle. fold a a'.
  destruct a as [a1 ah], a' as [a1' ah']. cbn in *. fold o o'.
  destruct (same_flags same Hre _ _ Hsame2) as (_ & _ & Hp).
  destruct o as [[fl s2] h2], o' as [[fl' s2'] h2']. cbn in *.
  unfold cleanup. cbn. by rewrite Hfl, Hh2, Hp.
Qed.


End ControlFacts.

(** ** Dictionaries *)

Section DictFacts.

Implicit Types (d : loc) (k : string) (v : value) (h : heap) (b : bundle).

Lemma dict_set_Some d k v h b :
  h !! d = Some b → dict_set d k v h = <[d := <[k := v]> b]> h.
Proof.
  intros Hd. unfold dict_set. apply map_eq. intros i.
  destruct (decide (d = i)) as [<-|Hne].
  - by rewrite lookup_alter_eq, lookup_insert_eq, Hd.
  - by rewrite lookup_alter_ne, lookup_insert_ne.
Qed.

Lemma dict_set_insert d k v h b :
  dict_set d k v (<[d := b]> h) = <[d := <[k := v]> b]> h.
Proof.
  rewrite (dict_set_Some _ _ _ _ b) by apply lookup_insert_eq.
  by rewrite insert_insert_eq.
Qed.

Lemma dict_get_insert d k h b : dict_get d k (<[d := b]> h) = b !! k.
Proof. unfold dict_get. by rewrite lookup_insert_eq. Qed.

Lemma dict_get_insert_ne d d' k h b :
  d ≠ d' → dict_get d' k (<[d := b]> h) = dict_get d' k h.
Proof. intros Hne. unfold dict_get. by rewrite lookup_insert_ne. Qed.

(** A write under one key is not seen under another key, nor in another
    dictionary. *)
Lemma dict_get_set_ne d k v d' k' h :
  d ≠ d' ∨ k ≠ k' →
  dict_get d' k' (dict_set d k v h) = dict_get d' k' h.
Proof.
  intros Hne. unfold dict_get, dict_set.
  destruct (decide (d = d')) as [<-|Hd].
  - rewrite lookup_alter_eq. destruct (h !! d) as [b|]; [|done]. cbn.
    destruct Hne as [|Hk]; [done|]. by rewrite lookup_insert_ne.
  - by rewrite lookup_alter_ne.
Qed.

Lemma dict_get_set_eq d k v h :
  is_Some (h !! d) → dict_get d k (dict_set d k v h) = Some v.
Proof.
  intros [b Hb]. rewrite (dict_set_Some _ _ _ _ b) by done.
  by rewrite dict_get_insert, lookup_insert_eq.
Qed.

Lemma dict_set_is_Some d k v d' h :
  is_Some (dict_set d k v h !! d') ↔ is_Some (h !! d').
Proof.
  unfold dict_set. destruct (decide (d = d')) as [<-|Hd].
  - rewrite lookup_alter_eq. by rewrite fmap_is_Some.
  - by rewrite lookup_alter_ne.
Qed.

End DictFacts.

(** ** The menu *)

Section MenuFacts.

Variable c : constants.

Implicit Types (m : Menu.t) (h : heap) (b : bundle).

Ltac distinct_keys H :=
  unfold bundle_keys in H;
  repeat (apply NoDup_cons in H as [? H]);
  repeat match goal with
         | Hn : _ ∉ _ :: _ |- _ => apply not_elem_of_cons in Hn as [? Hn]
         end.

(** C10.  Whatever the bundle, [reset_game_info] puts coin total, score,
    lives, current time and level number back to their defaults, and
    leaves the top score and the player identity, like every other entry
    and every other dictionary, as they were. *)
Theorem reset_game_info_keeps_identity m h b :
  NoDup (bundle_keys c) →
  h !! Menu.game_info m = Some b →
  let g := Menu.game_info m in
  let r := Menu.reset_game_info c m h in
  dict_get g (COIN_TOTAL c) r.2 = Some (VNum 0) ∧
  dict_get g (SCORE c) r.2 = Some (VNum 0) ∧
  dict_get g (LIVES c) r.2 = Some (VNum 3) ∧
  dict_get g (CURRENT_TIME c) r.2 = Some (VNum 0) ∧
  dict_get g (LEVEL_NUM c) r.2 = Some (VNum 1) ∧
  dict_get g (TOP_SCORE c) r.2 = b !! TOP_SCORE c ∧
  dict_get g (PLAYER_NAME c) r.2 = b !! PLAYER_NAME c ∧
  (∀ k, k ∉ [COIN_TOTAL c; SCORE c; LIVES c; CURRENT_TIME c; LEVEL_NUM c] →
        dict_get g k r.2 = b !! k) ∧
  (∀ d, d ≠ g → r.2 !! d = h !! d) ∧
  State.persist (Menu.parent r.1) = g.
Proof.
  intros Hkeys Hb g r. subst g r. distinct_keys Hkeys.
  unfold Menu.reset_game_info. cbn.
  rewrite (dict_set_Some _ _ _ h b) by done.
  rewrite !dict_set_insert, !dict_get_insert.
  repeat split.
  1-7: by rewrite ?lookup_insert_ne, ?lookup_insert_eq by done.
  - intros k Hk. repeat (apply not_elem_of_cons in Hk as [? Hk]).
    by rewrite dict_get_insert, !lookup_insert_ne.
  - intros d Hd. by rewrite lookup_insert_ne.
Qed.

Ltac dict_simpl :=
  repeat first
    [ rewrite dict_get_set_eq by (rewrite ?dict_set_is_Some; done)
    | rewrite dict_get_set_ne by (right; done) ].

Ltac run_menu :=
  unfold Menu.update, Menu.update_cursor, Menu.reset_game_info; cbn.

(** A frame without the confirm key writes the current time and, at
    most, the player identity. *)
Lemma update_keeps_entry m ks t h d k :
  k ≠ CURRENT_TIME c → k ≠ PLAYER_NAME c →
  ks K_RETURN = false →
  dict_get d k (Menu.update c m ks t h).2 = dict_get d k h.
Proof.
  intros Ht Hn Hret. run_menu. rewrite Hret.
  repeat case_match; simplify_eq/=; by dict_simpl.
Qed.

Lemma updates_keep_entry frames : ∀ m h d k,
  k ≠ CURRENT_TIME c → k ≠ PLAYER_NAME c →
  Forall (λ f : keys_t * Z, f.1 K_RETURN = false) frames →
  dict_get d k (Menu.updates c frames m h).2 = dict_get d k h.
Proof.
  induction frames as [|[ks t] frames IH]; intros m h d k Ht Hn Hall;
    [done|].
  apply Forall_cons in Hall as [Hret Hall]. cbn in *.
  destruct (Menu.update c m ks t h) as [m1 h1] eqn:Hrun.
  rewrite IH by done.
  change h1 with (m1, h1).2. rewrite <- Hrun. by apply update_keeps_entry.
Qed.

(** A frame with the confirm key down, for a menu whose [game_info] is
    the bundle [p]. *)
Lemma update_return m ks t h p :
  NoDup (bundle_keys c) →
  Menu.game_info m = p →
  ks K_RETURN = true → is_Some (h !! p) →
  let u := Menu.update c m ks t h in
  State.persist (Menu.parent u.1) = p ∧
  dict_get p (COIN_TOTAL c) u.2 = Some (VNum 0) ∧
  dict_get p (SCORE c) u.2 = Some (VNum 0) ∧
  dict_get p (LIVES c) u.2 = Some (VNum 3) ∧
  dict_get p (LEVEL_NUM c) u.2 = Some (VNum 1).
Proof.
  intros Hkeys Hg Hret Hp.
  destruct m as [[st ct dn nx ps] g pi cs cy ts]. cbn in *. subst.
  distinct_keys Hkeys. run_menu. rewrite Hret.
  destruct (decide (cs = PLAYER1 c));
    [destruct (ks K_DOWN)
    |destruct (decide (cs = PLAYER2 c)); [destruct (ks K_UP)|]];
    cbn; destruct (1000 <=? t - ts); cbn; repeat split; by dict_simpl.
Qed.

(** C7.  Activating the menu with a bundle writes nothing; frames in
    which the confirm key is not down leave coin total, score, lives and
    level number of every dictionary as they are; a frame in which it is
    down puts them back to their defaults in the bundle. *)
Theorem menu_resets_only_on_confirm m T p h :
  NoDup (bundle_keys c) →
  let a := Menu.startup c m T p h in
  a.2 = h ∧
  (∀ m' h' frames d k,
     k ∈ [COIN_TOTAL c; SCORE c; LIVES c; LEVEL_NUM c] →
     Forall (λ f : keys_t * Z, f.1 K_RETURN = false) frames →
     dict_get d k (Menu.updates c frames m' h').2 = dict_get d k h') ∧
  (∀ ks t,
     ks K_RETURN = true → is_Some (h !! p) →
     let u := Menu.update c a.1 ks t a.2 in
     State.persist (Menu.parent u.1) = p ∧
     dict_get p (COIN_TOTAL c) u.2 = Some (VNum 0) ∧
     dict_get p (SCORE c) u.2 = Some (VNum 0) ∧
     dict_get p (LIVES c) u.2 = Some (VNum 3) ∧
     dict_get p (LEVEL_NUM c) u.2 = Some (VNum 1)).
Proof.
  intros Hkeys a. subst a. pose proof Hkeys as Hnodup.
  distinct_keys Hkeys.
  split; [done|]. split.
  - intros m' h' frames d k Hk Hall.
    apply updates_keep_entry; [| |done];
      repeat (apply elem_of_cons in Hk as [->|Hk]); try done;
      by apply elem_of_nil in Hk.
  - intros ks t Hret Hp u. subst u. by apply update_return.
Qed.

(** The three kinds of frame of the selection scenario, for a menu
    whose [game_info] and [persist] are the bundle [p]. *)
Lemma update_down m ks t h p :
  NoDup (bundle_keys c) →
  Menu.game_info m = p → State.persist (Menu.parent m) = p →
  is_Some (h !! p) →
  Menu.cursor_state m = PLAYER1 c →
  ks K_DOWN = true →
  let u := Menu.update c m ks t h in
  Menu.game_info u.1 = p ∧ State.persist (Menu.parent u.1) = p ∧
  is_Some (u.2 !! p) ∧
  Menu.cursor_state u.1 = PLAYER2 c ∧
  dict_get p (PLAYER_NAME c) u.2 = Some (VStr (PLAYER_LUIGI c)).
Proof.
  intros Hkeys Hg Hp Hh Hcur Hdown.
  destruct m as [[st ct dn nx ps] g pi cs cy ts]. cbn in *. subst.
  distinct_keys Hkeys. run_menu.
  rewrite decide_True by done. rewrite Hdown.
  destruct (ks K_RETURN); cbn; destruct (1000 <=? t - ts); cbn;
    repeat split; rewrite ?dict_set_is_Some; try done; by dict_simpl.
Qed.

Lemma update_confirm m ks t h p :
  NoDup (bundle_keys c) →
  PLAYER1 c ≠ PLAYER2 c →
  Menu.game_info m = p → State.persist (Menu.parent m) = p →
  is_Some (h !! p) →
  Menu.cursor_state m = PLAYER2 c →
  ks K_UP = false → ks K_RETURN = true →
  let u := Menu.update c m ks t h in
  State.persist (Menu.parent u.1) = p ∧
  State.done (Menu.parent u.1) = true ∧
  dict_get p (PLAYER_NAME c) u.2 = dict_get p (PLAYER_NAME c) h.
Proof.
  intros Hkeys Hne Hg Hp Hh Hcur Hup Hret.
  destruct m as [[st ct dn nx ps] g pi cs cy ts]. cbn in *. subst.
  distinct_keys Hkeys. run_menu.
  rewrite decide_False by done. rewrite decide_True by done.
  rewrite Hup, Hret. cbn.
  destruct (1000 <=? t - ts); cbn; repeat split; by dict_simpl.
Qed.

Lemma update_up m ks t h p :
  NoDup (bundle_keys c) →
  PLAYER1 c ≠ PLAYER2 c →
  Menu.game_info m = p → State.persist (Menu.parent m) = p →
  is_Some (h !! p) →
  Menu.cursor_state m = PLAYER2 c →
  ks K_UP = true →
  let u := Menu.update c m ks t h in
  State.persist (Menu.parent u.1) = p ∧
  dict_get p (PLAYER_NAME c) u.2 = Some (VStr (PLAYER_MARIO c)).
Proof.
  intros Hkeys Hne Hg Hp Hh Hcur Hup.
  destruct m as [[st ct dn nx ps] g pi cs cy ts]. cbn in *. subst.
  distinct_keys Hkeys. run_menu.
  rewrite decide_False by done. rewrite decide_True by done.
  rewrite Hup.
  destruct (ks K_RETURN); cbn; destruct (1000 <=? t - ts); cbn;
    repeat split; by dict_simpl.
Qed.

(** C6.  From the selection that [startup] makes, a frame with the down
    key and then a frame with the confirm key (and not the up key) leave
    Luigi as the player identity of the bundle, with [done] set; and from
    the selection that the down key makes, a frame with the up key puts
    Mario back. *)
Theorem menu_selection m T p h ks1 t1 ks2 t2 ks3 t3 :
  NoDup (bundle_keys c) →
  PLAYER1 c ≠ PLAYER2 c →
  is_Some (h !! p) →
  ks1 K_DOWN = true →
  ks2 K_RETURN = true → ks2 K_UP = false →
  ks3 K_UP = true →
  let a := Menu.startup c m T p h in
  let chosen := Menu.updates c [(ks1, t1); (ks2, t2)] a.1 a.2 in
  let back := Menu.updates c [(ks1, t1); (ks3, t3)] a.1 a.2 in
  dict_get (State.persist (Menu.parent chosen.1)) (PLAYER_NAME c) chosen.2
    = Some (VStr (PLAYER_LUIGI c)) ∧
  State.done (Menu.parent chosen.1) = true ∧
  dict_get (State.persist (Menu.parent back.1)) (PLAYER_NAME c) back.2
    = Some (VStr (PLAYER_MARIO c)).
Proof.
  intros Hkeys Hcursor Hp Hdown Hret Hup2 Hup3 a chosen back.
  subst chosen back. cbn [Menu.updates].
  pose proof (update_down a.1 ks1 t1 a.2 p Hkeys eq_refl eq_refl Hp
                eq_refl Hdown) as Hone.
  destruct (Menu.update c a.1 ks1 t1 a.2) as [m1 h1].
  cbn in Hone. destruct Hone as (Hg1 & Hp1 & Hh1 & Hcur1 & Hname1).
  pose proof (update_confirm m1 ks2 t2 h1 p Hkeys Hcursor Hg1 Hp1 Hh1
                Hcur1 Hup2 Hret) as Htwo.
  pose proof (update_up m1 ks3 t3 h1 p Hkeys Hcursor Hg1 Hp1 Hh1
                Hcur1 Hup3) as Hthree.
  destruct (Menu.update c m1 ks2 t2 h1) as [m2 h2].
  destruct (Menu.update c m1 ks3 t3 h1) as [m3 h3].
  cbn in *. destruct Htwo as (-> & Hdone & ->).
  by destruct Hthree as (-> & ->).
Qed.

(** A frame with no key down: only the clock and the timeout act. *)
Lemma update_no_keys m t h :
  let u := Menu.update c m no_keys t h in
  Menu.timer_start u.1 = Menu.timer_start m ∧
  State.done (Menu.parent u.1)
    = State.done (Menu.parent m) || (1000 <=? t - Menu.timer_start m) ∧
  State.next (Menu.parent u.1)
    = (if 1000 <=? t - Menu.timer_start m then Some (LOAD_SCREEN c)
       else State.next (Menu.parent m)).
Proof.
  destruct m as [[st ct dn nx ps] g pi cs cy ts]. run_menu.
  destruct (decide (cs = PLAYER1 c)); [|destruct (decide (cs = PLAYER2 c))];
    cbn; destruct (1000 <=? t - ts); cbn;
    by rewrite ?orb_true_r, ?orb_false_r.
Qed.

Lemma updates_no_keys ts : ∀ m h,
  let u := Menu.updates c ((λ t, (no_keys, t)) <$> ts) m h in
  State.done (Menu.parent u.1)
    = State.done (Menu.parent m)
      || existsb (λ t, 1000 <=? t - Menu.timer_start m) ts ∧
  (State.next (Menu.parent m) = Some (LOAD_SCREEN c) →
   State.next (Menu.parent u.1) = Some (LOAD_SCREEN c)).
Proof.
  induction ts as [|t ts IH]; intros m h.
  { cbn. by rewrite orb_false_r. }
  cbn. pose proof (update_no_keys m t h) as Hone.
  destruct (Menu.update c m no_keys t h) as [m1 h1].
  cbn in Hone. destruct Hone as (Hts & Hdone & Hnext).
  specialize (IH m1 h1). cbn in IH. destruct IH as [IHdone IHnext].
  rewrite IHdone, Hdone, Hts, orb_assoc. split; [done|].
  intros Hload. apply IHnext. rewrite Hnext. by case_match.
Qed.

(** In an increasing sequence, a threshold is passed within the first
    [i + 1] clock values exactly when the last of them passes it. *)
Lemma threshold_prefix (T : Z) ts : ∀ i t,
  StronglySorted Z.lt ts →
  ts !! i = Some t →
  existsb (λ t', 1000 <=? t' - T) (take (S i) ts) = (1000 <=? t - T).
Proof.
  induction ts as [|x ts IH]; intros i t Hsorted Hi; [done|].
  apply StronglySorted_inv in Hsorted as [Hsorted Hx].
  destruct i as [|i].
  { cbn in *. simplify_eq. rewrite firstn_O. cbn. by rewrite orb_false_r. }
  cbn in Hi. cbn [take existsb]. rewrite (IH i t) by done.
  assert (x < t) as Hlt.
  { rewrite List.Forall_forall in Hx. apply Hx.
    apply list_elem_of_In. by eapply list_elem_of_lookup_2. }
  destruct (1000 <=? x - T) eqn:Hpass; [|done]. cbn.
  symmetry. apply Z.leb_le. apply Z.leb_le in Hpass. lia.
Qed.

(** C5.  A menu that is not done is activated at time [T]; then frames
    follow with no key down and increasing clock values.  After the frame
    of clock value [t] the menu is done exactly when [t - T >= 1000]: not
    before the timeout, and from the first frame that reaches it; and
    [next] is the load screen. *)
Theorem menu_timeout m T p h ts :
  State.done (Menu.parent m) = false →
  StronglySorted Z.lt ts →
  let a := Menu.startup c m T p h in
  ∀ i t, ts !! i = Some t →
    let u := Menu.updates c ((λ t, (no_keys, t)) <$> take (S i) ts)
                          a.1 a.2 in
    State.done (Menu.parent u.1) = (1000 <=? t - T) ∧
    State.next (Menu.parent u.1) = Some (LOAD_SCREEN c).
Proof.
  intros Hdone Hsorted a i t Hi u. subst u.
  pose proof (updates_no_keys (take (S i) ts) a.1 a.2) as [Hd Hn].
  split; [|by apply Hn].
  rewrite Hd. subst a. cbn [Menu.startup fst snd].
  destruct m as [[st ct dn nx ps] g pi cs cy tm]. cbn in *. subst dn.
  cbn. by apply threshold_prefix.
Qed.

(** Two menu objects that differ in the time stamps only go through a
    frame alike. *)
Lemma update_but_clock m m' ks t h :
  but_clock m = but_clock m' →
  let u := Menu.update c m ks t h in
  let u' := Menu.update c m' ks t h in
  but_clock u.1 = but_clock u'.1 ∧ u.2 = u'.2.
Proof.
  destruct m as [[st ct dn nx ps] g pi cs cy ts].
  destruct m' as [[st' ct' dn' nx' ps'] g' pi' cs' cy' ts'].
  unfold but_clock. cbn. intros [= -> -> -> -> -> -> -> ->]. run_menu.
  destruct (decide (cs' = PLAYER1 c));
    [destruct (ks K_DOWN)
    |destruct (decide (cs' = PLAYER2 c)); [destruct (ks K_UP)|]];
    cbn; destruct (ks K_RETURN); cbn; by destruct (1000 <=? t - ts').
Qed.

Lemma observe_but_clock frames : ∀ m m' h,
  but_clock m = but_clock m' →
  let o := observe (SC := Menu.screen c) frames m h in
  let o' := observe (SC := Menu.screen c) frames m' h in
  o.1.1 = o'.1.1 ∧ but_clock o.1.2 = but_clock o'.1.2 ∧ o.2 = o'.2.
Proof.
  induction frames as [|[ks t] frames IH]; intros m m' h Hsame; [done|].
  cbn. pose proof (update_but_clock m m' ks t h Hsame) as Hone.
  destruct (Menu.update c m ks t h) as [m1 h1].
  destruct (Menu.update c m' ks t h) as [m1' h1'].
  cbn in Hone. destruct Hone as [Hsame1 <-].
  specialize (IH m1 m1' h1 Hsame1). cbn in IH.
  destruct (observe frames m1 h1) as [[fl m2] h2].
  destruct (observe frames m1' h1) as [[fl' m2'] h2'].
  cbn in *. destruct IH as (-> & Hsame2 & ->).
  split; [|done]. f_equal.
  unfold but_clock in Hsame1. destruct m1 as [[] ?], m1' as [[] ?].
  cbn in *. by simplify_eq.
Qed.

(** What went before an activation of the menu matters through the
    [done] flag only. *)
Lemma lifecycle_same_done m m' T p frames h :
  State.done (Menu.parent m) = State.done (Menu.parent m') →
  lifecycle (SC := Menu.screen c) m T p frames h
  = lifecycle (SC := Menu.screen c) m' T p frames h.
Proof.
  intros Hdone. unfold lifecycle. cbn [startup Menu.screen].
  destruct (Menu.startup c m T p h) as [a h1] eqn:Ha.
  destruct (Menu.startup c m' T p h) as [a' h1'] eqn:Ha'.
  assert (but_clock a = but_clock a' ∧ h1 = h ∧ h1' = h)
    as (Hsame & -> & ->).
  { destruct m as [[st ct dn nx ps] g pi cs cy ts].
    destruct m' as [[st' ct' dn' nx' ps'] g' pi' cs' cy' ts'].
    unfold Menu.startup in *. cbn in *. by simplify_eq. }
  pose proof (observe_but_clock frames a a' h Hsame) as Hobs.
  destruct (observe frames a h) as [[fl m2] h2].
  destruct (observe frames a' h) as [[fl' m2'] h2'].
  cbn in Hobs. destruct Hobs as (-> & Hsame2 & ->).
  do 2 f_equal. unfold but_clock in Hsame2.
  destruct m2 as [[] ?], m2' as [[] ?]. cbn in *. by simplify_eq.
Qed.

(** *** More of the menu *)

(** The cases of one [update]: where the cursor is, which keys are down,
    whether the time is out. *)
Ltac frame_cases ks cs t ts :=
  destruct (decide (cs = PLAYER1 c));
    [destruct (ks K_DOWN)
    |destruct (decide (cs = PLAYER2 c)); [destruct (ks K_UP)|]];
    cbn; destruct (ks K_RETURN); cbn; destruct (1000 <=? t - ts); cbn.

Lemma dict_set_lookup_ne d k v d' h :
  d ≠ d' → dict_set d k v h !! d' = h !! d'.
Proof. intros Hne. unfold dict_set. by rewrite lookup_alter_ne. Qed.

(** One frame keeps the bundle of the menu. *)
Lemma update_keeps_bundle m ks t h p :
  Menu.game_info m = p → State.persist (Menu.parent m) = p →
  let u := Menu.update c m ks t h in
  Menu.game_info u.1 = p ∧ State.persist (Menu.parent u.1) = p.
Proof.
  destruct m as [[st ct dn nx ps] g pi cs cy ts]. cbn.
  intros -> ->. run_menu. by frame_cases ks cs t ts.
Qed.

(** X12.  The bundle the menu hands back is the one it was given: after
    [startup] with the bundle [p] and any frames, [persist] and [game_info]
    are still that same dictionary, which is what [cleanup] returns. *)
Theorem menu_hands_back_bundle frames m T p h :
  let a := Menu.startup c m T p h in
  let u := Menu.updates c frames a.1 a.2 in
  Menu.game_info u.1 = p ∧
  State.persist (Menu.parent u.1) = p ∧
  (cleanup (SC := Menu.screen c) u.1).1 = p.
Proof.
  intros a u.
  assert (Menu.game_info u.1 = p ∧ State.persist (Menu.parent u.1) = p)
    as [Hg Hp]; [|done].
  subst u.
  assert (Menu.game_info a.1 = p ∧ State.persist (Menu.parent a.1) = p)
    as Hstart by done.
  generalize a.2 as h0. revert Hstart. generalize a.1 as m0. clear a.
  induction frames as [|[ks t] frames IH]; intros m0 Hstart h0; [done|].
  cbn. destruct Hstart as [Hg Hp].
  pose proof (update_keeps_bundle m0 ks t h0 p Hg Hp) as Hone.
  destruct (Menu.update c m0 ks t h0) as [m1 h1]. by apply IH.
Qed.

Lemma update_writes_own_bundle m ks t h d :
  d ≠ Menu.game_info m →
  (Menu.update c m ks t h).2 !! d = h !! d.
Proof.
  destruct m as [[st ct dn nx ps] g pi cs cy ts]. cbn. intros Hd. run_menu.
  frame_cases ks cs t ts; by rewrite ?dict_set_lookup_ne by done.
Qed.

Lemma updates_write_own_bundle frames p : ∀ m0 h0 d,
  Menu.game_info m0 = p → State.persist (Menu.parent m0) = p →
  d ≠ p →
  (Menu.updates c frames m0 h0).2 !! d = h0 !! d.
Proof.
  induction frames as [|[ks t] frames IH]; intros m0 h0 d Hg Hp Hd; [done|].
  cbn. pose proof (update_keeps_bundle m0 ks t h0 p Hg Hp) as [Hg1 Hp1].
  assert (d ≠ Menu.game_info m0) as Hd0 by (by rewrite Hg).
  pose proof (update_writes_own_bundle m0 ks t h0 d Hd0) as Hother.
  destruct (Menu.update c m0 ks t h0) as [m1 h1]. cbn in *.
  by rewrite (IH m1 h1 d Hg1 Hp1 Hd).
Qed.

(** X13.  The menu writes into its bundle and into no other dictionary
    of game data: after [startup] with the bundle [p] and any frames, every
    other dictionary that was there holds what it held. *)
Theorem menu_writes_own_bundle_only frames m T p h :
  let a := Menu.startup c m T p h in
  let u := Menu.updates c frames a.1 a.2 in
  ∀ d b, d ≠ p → h !! d = Some b → u.2 !! d = Some b.
Proof.
  intros a u d b Hd Hb. subst u.
  rewrite <- Hb.
  exact (updates_write_own_bundle frames p a.1 h d eq_refl eq_refl Hd).
Qed.

Lemma update_keeps_unwritten m ks t h d k :
  k ∉ written_keys c →
  dict_get d k (Menu.update c m ks t h).2 = dict_get d k h.
Proof.
  intros Hk. unfold written_keys in Hk.
  repeat (apply not_elem_of_cons in Hk as [? Hk]).
  destruct m as [[st ct dn nx ps] g pi cs cy ts]. run_menu.
  frame_cases ks cs t ts; by dict_simpl.
Qed.

(** X14.  Whatever the keys, the menu writes under six keys only: coin
    total, score, lives, current time, level number and player name.  An
    entry under any other key, the top score among them, goes through the
    menu unchanged. *)
Theorem menu_writes_six_keys_only frames : ∀ m h d k,
  k ∉ written_keys c →
  dict_get d k (Menu.updates c frames m h).2 = dict_get d k h.
Proof.
  induction frames as [|[ks t] frames IH]; intros m h d k Hk; [done|].
  cbn. pose proof (update_keeps_unwritten m ks t h d k Hk) as Hone.
  destruct (Menu.update c m ks t h) as [m1 h1]. cbn in Hone.
  by rewrite IH.
Qed.

(** One frame of the menu, whatever the keys: the timer start is kept;
    [done] is never lowered and is raised when the time is out; [next]
    stays the load screen. *)
Lemma update_exit m ks t h :
  let u := Menu.update c m ks t h in
  Menu.timer_start u.1 = Menu.timer_start m ∧
  (State.done (Menu.parent m) = true →
   State.done (Menu.parent u.1) = true) ∧
  (1000 ≤ t - Menu.timer_start m → State.done (Menu.parent u.1) = true) ∧
  (State.next (Menu.parent m) = Some (LOAD_SCREEN c) →
   State.next (Menu.parent u.1) = Some (LOAD_SCREEN c)).
Proof.
  destruct m as [[st ct dn nx ps] g pi cs cy ts]. run_menu.
  destruct (1000 <=? t - ts) eqn:Hout;
    [|apply Z.leb_gt in Hout];
    frame_cases ks cs t ts; repeat split; try done; lia.
Qed.

(** X15.  The menu is left for the load screen and no other, and the
    timeout does not depend on the keys: after [startup] at time [T] and
    any frames, [next] is the load screen, and as soon as one frame has come
    with [t - T >= 1000] the menu is done and stays done. *)
Theorem menu_timeout_any_keys frames m T p h :
  Exists (λ f : keys_t * Z, 1000 ≤ f.2 - T) frames →
  let a := Menu.startup c m T p h in
  let u := Menu.updates c frames a.1 a.2 in
  State.done (Menu.parent u.1) = true ∧
  State.next (Menu.parent u.1) = Some (LOAD_SCREEN c).
Proof.
  intros Hout a u. subst u.
  assert (Menu.timer_start a.1 = T ∧
          State.next (Menu.parent a.1) = Some (LOAD_SCREEN c))
    as Hstart by done.
  generalize a.2 as h0. revert Hstart. generalize a.1 as m0. clear a.
  assert (∀ fs m0 h0,
    State.done (Menu.parent m0) = true →
    State.next (Menu.parent m0) = Some (LOAD_SCREEN c) →
    State.done (Menu.parent (Menu.updates c fs m0 h0).1) = true ∧
    State.next (Menu.parent (Menu.updates c fs m0 h0).1)
      = Some (LOAD_SCREEN c)) as Hsticky.
  { induction fs as [|[ks t] fs IHfs]; intros m0 h0 Hd Hn; [done|].
    cbn. pose proof (update_exit m0 ks t h0) as (_ & Hd1 & _ & Hn1).
    destruct (Menu.update c m0 ks t h0) as [m1 h1]. cbn in *.
    apply IHfs; auto. }
  induction Hout as [[ks t] frames Hnow|[ks t] frames Hlater IH];
    intros m0 [Hts Hnext] h0; cbn;
    pose proof (update_exit m0 ks t h0) as (Hts1 & _ & Hd1 & Hn1);
    destruct (Menu.update c m0 ks t h0) as [m1 h1]; cbn in *.
  - apply Hsticky; [|by auto]. apply Hd1. by rewrite Hts.
  - apply IH. split; [by rewrite Hts1|by auto].
Qed.

Lemma update_selection_ok m ks t h :
  selection_ok c m → selection_ok c (Menu.update c m ks t h).1.
Proof.
  destruct m as [[st ct dn nx ps] g pi cs cy ts]. unfold selection_ok. cbn.
  intros Hsel. run_menu.
  frame_cases ks cs t ts; first [by left | by right | done].
Qed.

(** X16.  The selection stays one of the two: after [startup] and any
    frames the cursor is on the first line with picture 0 or on the second
    line with picture 1, so [player_list[player_index]] is within the two
    pictures that [setup_player] loads. *)
Theorem menu_selection_in_bounds frames m T p h :
  let a := Menu.startup c m T p h in
  let u := Menu.updates c frames a.1 a.2 in
  selection_ok c u.1 ∧ 0 ≤ Menu.player_index u.1 < 2.
Proof.
  intros a u. assert (selection_ok c u.1) as Hsel.
  { subst u. assert (selection_ok c a.1) as Hstart by (by left).
    generalize a.2 as h0. revert Hstart. generalize a.1 as m0. clear a.
    induction frames as [|[ks t] frames IH]; intros m0 Hstart h0; [done|].
    cbn. pose proof (update_selection_ok m0 ks t h0 Hstart) as Hone.
    destruct (Menu.update c m0 ks t h0) as [m1 h1]. by apply IH. }
  split; [done|]. destruct Hsel as [[_ ->]|[_ ->]]; lia.
Qed.

(** X17.  [startup] puts the cursor on the first player and does not
    write that choice into the bundle: a confirm frame in which the down
    key is not down ends the menu with the player identity that the bundle
    came with, whichever it is. *)
Theorem menu_confirm_keeps_given_identity m T p h ks t :
  NoDup (bundle_keys c) →
  ks K_RETURN = true → ks K_DOWN = false →
  let a := Menu.startup c m T p h in
  let u := Menu.update c a.1 ks t a.2 in
  State.done (Menu.parent u.1) = true ∧
  Menu.cursor_state u.1 = PLAYER1 c ∧
  dict_get p (PLAYER_NAME c) u.2 = dict_get p (PLAYER_NAME c) h.
Proof.
  intros Hkeys Hret Hdown a u. subst a u. distinct_keys Hkeys.
  destruct m as [[st ct dn nx ps] g pi cs cy ts]. run_menu.
  rewrite decide_True by done. rewrite Hdown, Hret. cbn.
  destruct (1000 <=? t - T); cbn; repeat split; by dict_simpl.
Qed.

(** X18.  The cursor is drawn one frame late: in the frame in which the
    down key moves the selection, the cursor keeps the height of the first
    line (358); it takes that of the second line (403) in the next frame,
    if the up key is not down then. *)
Theorem menu_cursor_lags m T p h ks1 t1 ks2 t2 :
  PLAYER1 c ≠ PLAYER2 c →
  ks1 K_DOWN = true → ks2 K_UP = false →
  let a := Menu.startup c m T p h in
  let u1 := Menu.update c a.1 ks1 t1 a.2 in
  let u2 := Menu.update c u1.1 ks2 t2 u1.2 in
  Menu.cursor_state u1.1 = PLAYER2 c ∧ Menu.cursor_rect_y u1.1 = 358 ∧
  Menu.cursor_state u2.1 = PLAYER2 c ∧ Menu.cursor_rect_y u2.1 = 403.
Proof.
  intros Hne Hdown Hup a u1 u2. subst a u1 u2.
  destruct m as [[st ct dn nx ps] g pi cs cy ts]. run_menu.
  rewrite decide_True by done. rewrite Hdown.
  destruct (ks1 K_RETURN); cbn; destruct (1000 <=? t1 - T); cbn;
    rewrite decide_False by done; rewrite decide_True by done;
    rewrite Hup; cbn;
    destruct (ks2 K_RETURN); cbn; by destruct (1000 <=? t2 - T).
Qed.

(** X19.  [Menu.__init__] builds its bundle anew: the menu holds, as
    [persist] and [game_info], a dictionary that did not exist before,
    with the entries of the display; the dictionaries that existed are
    untouched; the menu is not done, points to the load screen and has the
    first selection. *)
Theorem menu_init_fresh h :
  let r := Menu.__init__ c h in
  let p := State.persist (Menu.parent r.1) in
  (p ∉ dom h) ∧
  Menu.game_info r.1 = p ∧
  r.2 !! p = Some (Menu.initial_persist c) ∧
  (∀ d, d ∈ dom h → r.2 !! d = h !! d) ∧
  State.done (Menu.parent r.1) = false ∧
  State.next (Menu.parent r.1) = Some (LOAD_SCREEN c) ∧
  Menu.cursor_state r.1 = PLAYER1 c ∧ Menu.player_index r.1 = 0.
Proof.
  intros r p. subst r p.
  unfold Menu.__init__, State.__init__, dict_new. cbn.
  set (d1 := fresh (dom h)).
  set (d2 := fresh (dom (<[d1 := ∅]> h))).
  assert (d1 ∉ dom h) as H1 by apply is_fresh.
  assert (d2 ∉ dom (<[d1 := (∅ : bundle)]> h)) as H2 by apply is_fresh.
  rewrite dom_insert_L in H2.
  apply not_elem_of_union in H2 as [H21 H2].
  apply not_elem_of_singleton in H21.
  repeat split; try done.
  - by rewrite lookup_insert_eq.
  - intros d Hd. rewrite !lookup_insert_ne; [done| |]; set_solver.
Qed.

(** X20.  The clock entry of the bundle after a frame at time [t] is [t],
    unless the confirm key is down in that frame: then it is 0, the reset
    coming after the clock is written. *)
Theorem menu_clock_entry m ks t h :
  NoDup (bundle_keys c) →
  is_Some (h !! Menu.game_info m) →
  dict_get (Menu.game_info m) (CURRENT_TIME c) (Menu.update c m ks t h).2
  = Some (VNum (if ks K_RETURN then 0 else t)).
Proof.
  intros Hkeys Hh. distinct_keys Hkeys.
  destruct m as [[st ct dn nx ps] g pi cs cy ts]. cbn in Hh. run_menu.
  frame_cases ks cs t ts; by dict_simpl.
Qed.


(** The menu sets itself anew, up to the two time stamps. *)
Lemma menu_reinitialises :
  reinitialises (SC := Menu.screen c) (λ m m', but_clock m = but_clock m').
Proof.
  split.
  - intros m m'. unfold but_clock.
    destruct m as [[st ct dn nx ps] g pi cs cy ts].
    destruct m' as [[st' ct' dn' nx' ps'] g' pi' cs' cy' ts'].
    cbn. by intros [= -> -> -> -> -> -> -> ->].
  - intros m m' T p h. cbn [startup Menu.screen super].
    destruct m as [[st ct dn nx ps] g pi cs cy ts].
    destruct m' as [[st' ct' dn' nx' ps'] g' pi' cs' cy' ts'].
    cbn. by intros ->.
  - intros m m' ks t h Hsame. by apply update_but_clock.
Qed.

End MenuFacts.

(** ** Leaving a screen and coming back *)

(** C3.  For a screen of any class and in any state, [cleanup] returns the
    bundle the screen holds and leaves the screen with [done] false and
    nothing else changed in the part that [State] declares.  This makes a
    later activation like any other, for every screen class whose [startup]
    sets everything but the flag anew: whatever two states the screen was
    left in, after [cleanup] an activation with the same time, bundle,
    frames and dictionaries shows the same flags after each frame, ends in
    the same state of the object and in the same dictionaries, and hands
    back the same bundle.  The menu is such a class, all its attributes but
    the two time stamps of [State] counting for the state of the object. *)
Theorem cleanup_allows_reactivation :
  (∀ (Scr : Type) (SC : Screen Scr) (s : Scr),
     (cleanup s).1 = State.persist (super s) ∧
     State.done (super (cleanup s).2) = false ∧
     State.persist (super (cleanup s).2) = State.persist (super s) ∧
     State.next (super (cleanup s).2) = State.next (super s) ∧
     State.start_time (super (cleanup s).2) = State.start_time (super s) ∧
     State.current_time (super (cleanup s).2)
       = State.current_time (super s)) ∧
  (∀ (Scr : Type) (SC : Screen Scr) (same : Scr → Scr → Prop),
     reinitialises same →
     ∀ (s s' : Scr) T p frames h,
       let a := startup (cleanup s).2 T p h in
       let a' := startup (cleanup s').2 T p h in
       let o := observe frames a.1 a.2 in
       let o' := observe frames a'.1 a'.2 in
       o.1.1 = o'.1.1 ∧ same o.1.2 o'.1.2 ∧ o.2 = o'.2 ∧
       lifecycle (cleanup s).2 T p frames h
       = lifecycle (cleanup s').2 T p frames h) ∧
  (∀ (c : constants),
     reinitialises (SC := Menu.screen c)
       (λ m m', but_clock m = but_clock m')) ∧
  (∀ (c : constants) (m m' : Menu.t) T p frames h,
     let a := Menu.startup c (cleanup (SC := Menu.screen c) m).2 T p h in
     let a' := Menu.startup c (cleanup (SC := Menu.screen c) m').2 T p h in
     let o := observe (SC := Menu.screen c) frames a.1 a.2 in
     let o' := observe (SC := Menu.screen c) frames a'.1 a'.2 in
     o.1.1 = o'.1.1 ∧
     but_clock o.1.2 = but_clock o'.1.2 ∧
     o.2 = o'.2 ∧
     lifecycle (SC := Menu.screen c)
       (cleanup (SC := Menu.screen c) m).2 T p frames h
     = lifecycle (SC := Menu.screen c)
         (cleanup (SC := Menu.screen c) m').2 T p frames h).
Proof.
  split; [|split; [|split]].
  - intros Scr SC s. unfold cleanup. cbn. by rewrite super_with_super.
  - intros Scr SC same Hre s s' T p frames h.
    by apply reactivation_same.
  - apply menu_reinitialises.
  - intros c m m' T p frames h.
    exact (reactivation_same (SC := Menu.screen c)
             (λ m m', but_clock m = but_clock m') m m' T p frames h
             (menu_reinitialises c)).
Qed.

(** ** The properties on the sample data *)

Lemma sample_keys_distinct : NoDup (bundle_keys sample).
Proof. apply (bool_decide_unpack _). by vm_compute. Qed.

(** The sample objects are the ones the constructors and a confirm frame
    build. *)
Example sample_menu_init :
  Menu.__init__ sample ∅ = (sample_menu, sample_heap) ∧
  Menu.__init__ sample sample_heap = (sample_menu2, sample_heap2) ∧
  Menu.update sample sample_menu (only K_RETURN) 20 sample_heap2
    = (sample_menu_done, sample_heap2).
Proof. repeat split; vm_compute; reflexivity. Qed.

Lemma update_transition_first_witness :
  ∃ w', Control.update (SC := Menu.screen sample) 30 sample_world_done =
          (Return (), w',
           [pg_time_get_ticks; state_cleanup 1;
            state_startup 2 30 2; state_update 2 (only K_RETURN) 30]) ∧
        Control.state_name (Control.self w') = Some "load screen" ∧
        Control.state (Control.self w') = Some 2%positive.
Proof.
  eexists. split.
  - etransitivity;
      [apply (update_transition_first (SC := Menu.screen sample)
                sample_world_done 30 1%positive sample_menu_done
                2%positive sample_menu2);
       vm_compute; reflexivity|].
    vm_compute. reflexivity.
  - by vm_compute.
Defined.

Lemma idle_updates_keep_active_witness :
  stays_idle (SC := Menu.screen sample) [10; 20; 30] sample_world = true ∧
  ∃ w' tr,
    updates (SC := Menu.screen sample) [10; 20] sample_world
      = (Return (), w', tr) ∧
    Control.state_name (Control.self w') = Some "main menu" ∧
    Control.state (Control.self w') = Some 1%positive ∧
    Forall (λ c, is_transition c = false) tr.
Proof.
  assert (stays_idle (SC := Menu.screen sample) [10; 20; 30] sample_world
          = true) as Hidle by (vm_compute; reflexivity).
  split; [exact Hidle|].
  exact (idle_updates_keep_active (SC := Menu.screen sample)
           [10; 20; 30] sample_world Hidle 2).
Defined.

Lemma unregistered_next_raises_witness :
  ∃ w' tr,
    Control.update (SC := Menu.screen sample) 30 sample_world_unregistered
      = (Raise (KeyError (Some "load screen")), w', tr) ∧
    tr = [pg_time_get_ticks; state_cleanup 1].
Proof.
  eexists _, _. split; [|reflexivity].
  etransitivity;
    [apply (unregistered_next_raises (SC := Menu.screen sample)
              sample_world_unregistered 30 1%positive sample_menu_done);
     vm_compute; reflexivity|].
  vm_compute. reflexivity.
Defined.

Lemma menu_timeout_witness :
  let a := Menu.startup sample sample_menu 0 2 sample_heap in
  let before :=
    Menu.updates sample [(no_keys, 500); (no_keys, 999)] a.1 a.2 in
  let after :=
    Menu.updates sample [(no_keys, 500); (no_keys, 999); (no_keys, 1000)]
                 a.1 a.2 in
  State.done (Menu.parent before.1) = false ∧
  State.done (Menu.parent after.1) = true ∧
  State.next (Menu.parent after.1) = Some "load screen".
Proof.
  assert (StronglySorted Z.lt [500; 999; 1000; 1500]) as Hsorted
    by (repeat constructor).
  pose proof (menu_timeout sample sample_menu 0 2 sample_heap
                [500; 999; 1000; 1500] eq_refl Hsorted) as W.
  cbv zeta in W. intros a before after. split; [|split].
  - exact (proj1 (W 1%nat 999 eq_refl)).
  - exact (proj1 (W 2%nat 1000 eq_refl)).
  - exact (proj2 (W 2%nat 1000 eq_refl)).
Defined.

Lemma menu_selection_witness :
  let a := Menu.startup sample sample_menu 0 2 sample_heap in
  let chosen :=
    Menu.updates sample [(only K_DOWN, 10); (only K_RETURN, 20)] a.1 a.2 in
  let back :=
    Menu.updates sample [(only K_DOWN, 10); (only K_UP, 20)] a.1 a.2 in
  dict_get (State.persist (Menu.parent chosen.1)) "player name" chosen.2
    = Some (VStr "luigi") ∧
  State.done (Menu.parent chosen.1) = true ∧
  dict_get (State.persist (Menu.parent back.1)) "player name" back.2
    = Some (VStr "mario").
Proof.
  apply (menu_selection sample sample_menu 0 2 sample_heap
           (only K_DOWN) 10 (only K_RETURN) 20 (only K_UP) 20).
  - exact sample_keys_distinct.
  - discriminate.
  - unfold sample_heap. rewrite lookup_insert_eq. by eexists.
  - reflexivity.
  - reflexivity.
  - reflexivity.
  - reflexivity.
Defined.

Lemma menu_resets_only_on_confirm_witness :
  let a := Menu.startup sample sample_menu 0 2 sample_heap in
  a.2 = sample_heap ∧
  dict_get 2 "lives"
    (Menu.updates sample [(only K_DOWN, 10); (no_keys, 20)] a.1
       (dict_set 2 "lives" (VNum 1) a.2)).2 = Some (VNum 1) ∧
  dict_get 2 "lives"
    (Menu.update sample a.1 (only K_RETURN) 30 a.2).2 = Some (VNum 3).
Proof.
  pose proof (menu_resets_only_on_confirm sample sample_menu 0 2 sample_heap
                sample_keys_distinct) as W.
  cbv zeta in W. destruct W as (Hstart & Hkeep & Hreset).
  intros a. split; [exact Hstart|]. split.
  - rewrite (Hkeep a.1 (dict_set 2 "lives" (VNum 1) a.2)
               [(only K_DOWN, 10); (no_keys, 20)] 2%positive "lives").
    + by vm_compute.
    + apply elem_of_cons. right. apply elem_of_cons. right.
      apply elem_of_cons. by left.
    + by repeat constructor.
  - apply (Hreset (only K_RETURN) 30 eq_refl).
    unfold sample_heap. rewrite lookup_insert_eq. by eexists.
Defined.

Lemma reset_game_info_keeps_identity_witness :
  let b : bundle :=
    <["top score" := VNum 4200]>
      (<["player name" := VStr "luigi"]>
         (<["lives" := VNum 1]> (Menu.initial_persist sample))) in
  let r := Menu.reset_game_info sample sample_menu (<[2%positive := b]> ∅) in
  dict_get 2 "lives" r.2 = Some (VNum 3) ∧
  dict_get 2 "top score" r.2 = Some (VNum 4200) ∧
  dict_get 2 "player name" r.2 = Some (VStr "luigi").
Proof.
  intros b r.
  pose proof (reset_game_info_keeps_identity sample sample_menu
                (<[2%positive := b]> ∅) b sample_keys_distinct
                (lookup_insert_eq _ _ _)) as W.
  cbv zeta in W.
  destruct W as (_ & _ & Hlives & _ & _ & Htop & Hname & _).
  split; [exact Hlives|]. split.
  - etransitivity; [exact Htop|]. by vm_compute.
  - etransitivity; [exact Hname|]. by vm_compute.
Defined.

(** A run of [main] on the sample world: a quiet frame, a frame in which
    the confirm key goes down, a frame with a [QUIT] event, and a frame
    that is never reached.  The menu is done after the second frame, the
    third one starts with the transition, is completed, and the loop is
    left. *)
Example sample_main_run :
  ∃ w',
    Control.main (SC := Menu.screen sample)
      [Control.Frame [] 10;
       Control.Frame [Event KEYDOWN (only K_RETURN)] 20;
       Control.Frame [Event QUIT no_keys] 30;
       Control.Frame [] 40]
      sample_world
    = (Return Control.Left, w',
       [while_not_done false; pg_event_get; pg_time_get_ticks;
        state_update 1 no_keys 10; pg_display_update; clock_tick 60;
        while_not_done false; pg_event_get; pg_key_get_pressed;
        pg_time_get_ticks; state_update 1 (only K_RETURN) 20;
        pg_display_update; clock_tick 60;
        while_not_done false; pg_event_get; pg_time_get_ticks;
        state_cleanup 1; state_startup 2 30 2;
        state_update 2 (only K_RETURN) 30;
        pg_display_update; clock_tick 60;
        while_not_done true]) ∧
    Control.state_name (Control.self w') = Some "load screen".
Proof. eexists. split; vm_compute; reflexivity. Qed.

(** What [cleanup] is for: a menu left with [done] set shows the flag from
    its first frame on when it is activated again, and after [cleanup] it
    does not. *)
Example sample_lifecycle_done :
  (lifecycle (SC := Menu.screen sample) sample_menu_done 100 2
             [(no_keys, 110)] sample_heap).1.1
    = [(true, Some "load screen")] ∧
  (lifecycle (SC := Menu.screen sample)
             (cleanup (SC := Menu.screen sample) sample_menu_done).2 100 2
             [(no_keys, 110)] sample_heap).1.1
    = [(false, Some "load screen")].
Proof. split; vm_compute; reflexivity. Qed.

(** ** The menu under the controller *)

Section MenuUnderControl.

Variable c : constants.


End MenuUnderControl.

(** ** Loading the pictures *)

Section GfxFacts.

Variable surface : Type.
Variable os_path_splitext : string → string * string.
Variable os_path_join : string → string → string.
Variable str_lower : string → string.
Variable pg_image_load : string → surface.
Variable get_alpha : surface → bool.
Variable convert_alpha : surface → surface.
Variable convert : surface → surface.
Variable set_colorkey : Z * Z * Z → surface → surface.

Local Abbreviation load_all :=
  (load_all_gfx surface os_path_splitext os_path_join str_lower
     pg_image_load get_alpha convert_alpha convert set_colorkey).
Local Abbreviation load_pic :=
  (load_one surface os_path_join pg_image_load get_alpha convert_alpha
     convert set_colorkey).
Local Abbreviation step :=
  (load_step surface os_path_splitext os_path_join str_lower
     pg_image_load get_alpha convert_alpha convert set_colorkey).

Lemma load_all_gfx_snoc directory listing pic colorkey accept :
  load_all directory (listing ++ [pic]) colorkey accept
  = step directory colorkey accept
      (load_all directory listing colorkey accept) pic.
Proof. unfold load_all_gfx. by rewrite fold_left_app. Qed.

(** X22.  The picture stored under a name is that of the last file of
    the listing that has this stem and an accepted extension (compared in
    lower case): files that share a stem overwrite one another without
    notice, and a name that no accepted file has is absent. *)
Theorem load_all_gfx_lookup directory listing colorkey accept name :
  load_all_gfx surface os_path_splitext os_path_join str_lower
    pg_image_load get_alpha convert_alpha convert set_colorkey
    directory listing colorkey accept !! name
  = load_one surface os_path_join pg_image_load get_alpha convert_alpha
      convert set_colorkey directory colorkey
      <$> last (List.filter
                  (loads_as os_path_splitext str_lower accept name)
                  listing).
Proof.
  induction listing as [|pic listing IH] using rev_ind; [done|].
  rewrite load_all_gfx_snoc, List.filter_app. cbn [List.filter].
  unfold load_step, loads_as at 2.
  destruct (os_path_splitext pic) as [nm ext] eqn:Hsplit. cbn [fst snd].
  destruct (decide (str_lower ext ∈ accept)) as [Hin|Hout].
  - destruct (decide (nm = name)) as [->|Hne].
    + rewrite bool_decide_true by done.
      by rewrite lookup_insert_eq, last_snoc.
    + rewrite bool_decide_false by (by intros [? ?]).
      by rewrite lookup_insert_ne, app_nil_r.
  - rewrite bool_decide_false by (by intros [? ?]). by rewrite app_nil_r.
Qed.

(** X23.  The names of the result are the stems of the files with an
    accepted extension, and no others: a file with another extension adds
    nothing, and an empty directory gives an empty dictionary. *)
Theorem load_all_gfx_dom directory listing colorkey accept :
  dom (load_all_gfx surface os_path_splitext os_path_join str_lower
         pg_image_load get_alpha convert_alpha convert set_colorkey
         directory listing colorkey accept)
  = list_to_set
      ((λ pic, (os_path_splitext pic).1)
         <$> List.filter
               (λ pic, bool_decide
                         (str_lower (os_path_splitext pic).2 ∈ accept))
               listing).
Proof.
  induction listing as [|pic listing IH] using rev_ind.
  { unfold load_all_gfx. cbn. by rewrite dom_empty_L. }
  rewrite load_all_gfx_snoc, List.filter_app, fmap_app, list_to_set_app_L.
  rewrite <- IH. cbn [List.filter]. unfold load_step.
  destruct (os_path_splitext pic) as [nm ext] eqn:Hsplit. cbn [fst snd].
  destruct (decide (str_lower ext ∈ accept)) as [Hin|Hout].
  - rewrite bool_decide_true by done. cbn. rewrite Hsplit. cbn.
    rewrite dom_insert_L, union_empty_r_L. apply (comm_L (∪)).
  - rewrite bool_decide_false by done. cbn. by rewrite union_empty_r_L.
Qed.

End GfxFacts.

(** ** The further properties on the sample data *)

Lemma setup_states_unregistered_start_witness :
  ∃ w',
    Control.setup_states sample_registry (Some "level") sample_world_boot
    = (Raise (KeyError (Some "level")), w', []).
Proof.
  eexists.
  apply (setup_states_unregistered_start (Scr := Menu.t)).
  vm_compute. reflexivity.
Defined.

Lemma controller_stays_registered_witness : registered sample_run.1.2.
Proof.
  apply (controller_stays_registered (SC := Menu.screen sample)
           sample_registry (Some "main menu") sample_world_boot
           sample_world [] [10; 1500; 1600] sample_run.1.2 sample_run.2);
    vm_compute; reflexivity.
Defined.

Lemma failed_transition_then_update_witness :
  ∃ w2,
    Control.update (SC := Menu.screen sample) 40
      (Control.update (SC := Menu.screen sample) 30
         sample_world_unregistered).1.2
    = (Return (), w2,
       [pg_time_get_ticks; state_update 1 (only K_RETURN) 40]) ∧
    Control.state_name (Control.self w2) = Some "load screen".
Proof.
  destruct (failed_transition_then_update (SC := Menu.screen sample)
              sample_world_unregistered 30 40 1%positive sample_menu_done
              ltac:(vm_compute; reflexivity) ltac:(vm_compute; reflexivity)
              ltac:(vm_compute; reflexivity) ltac:(vm_compute; reflexivity))
    as (_ & _ & _ & w2 & Hrun & Hname).
  exists w2. split; [exact Hrun|exact Hname].
Defined.

Lemma update_before_setup_witness :
  ∃ w',
    Control.update (SC := Menu.screen sample) 5 sample_world_boot
    = (Raise (AttributeError "done"), w', [pg_time_get_ticks]).
Proof.
  eexists.
  apply (update_before_setup (SC := Menu.screen sample) sample_world_boot 5).
  reflexivity.
Defined.


Lemma sample_world_inactive_idle :
  inactive_idle (SC := Menu.screen sample) sample_world.
Proof.
  intros l s Hl _. unfold sample_world in Hl. cbn in Hl.
  apply lookup_insert_Some in Hl as [[_ <-]|[_ Hl]]; [reflexivity|].
  apply lookup_singleton_Some in Hl as [_ <-]. reflexivity.
Qed.

Lemma left_screens_not_done_witness :
  inactive_idle (SC := Menu.screen sample) sample_run.1.2.
Proof.
  apply (left_screens_not_done (SC := Menu.screen sample)
           [10; 1500; 1600] sample_world sample_run.1.2 sample_run.2).
  - exact sample_world_inactive_idle.
  - vm_compute. reflexivity.
Defined.

Lemma main_left_only_by_quit_witness :
  Control.done (Control.self sample_world) = true ∨
  Exists (λ f, existsb is_quit (Control.events f) = true) sample_frames.
Proof.
  apply (main_left_only_by_quit (SC := Menu.screen sample) sample_frames
           sample_world sample_session.1.2 sample_session.2).
  vm_compute. reflexivity.
Defined.

Lemma iteration_passes_keys_witness :
  ∃ w',
    Control.iteration (SC := Menu.screen sample)
      (Control.Frame [Event KEYDOWN (only K_DOWN); Event QUIT no_keys] 10)
      sample_world
    = (Return (), w',
       [pg_event_get; pg_key_get_pressed; pg_time_get_ticks;
        state_update 1 (only K_DOWN) 10; pg_display_update;
        clock_tick 60]) ∧
    Control.done (Control.self w') = true.
Proof.
  eexists. split.
  - etransitivity;
      [apply (iteration_passes_keys (SC := Menu.screen sample)
                (Control.Frame
                   [Event KEYDOWN (only K_DOWN); Event QUIT no_keys] 10)
                sample_world 1%positive sample_menu);
       vm_compute; reflexivity|].
    vm_compute. reflexivity.
  - by vm_compute.
Defined.

Lemma main_raises_key_error_witness :
  ∃ w',
    Control.main (SC := Menu.screen sample)
      [Control.Frame [Event QUIT no_keys] 30; Control.Frame [] 40]
      sample_world_unregistered
    = (Raise (KeyError (Some "load screen")), w',
       [while_not_done false; pg_event_get; pg_time_get_ticks;
        state_cleanup 1]) ∧
    Control.done (Control.self w') = true.
Proof.
  destruct (main_raises_key_error (SC := Menu.screen sample)
              (Control.Frame [Event QUIT no_keys] 30) [Control.Frame [] 40]
              sample_world_unregistered 1%positive sample_menu_done
              eq_refl eq_refl
              ltac:(vm_compute; reflexivity) eq_refl
              ltac:(vm_compute; reflexivity))
    as (w' & Hrun & Hdone).
  exists w'. split; [exact Hrun|exact Hdone].
Defined.

Lemma main_app_witness :
  let first := Control.main (SC := Menu.screen sample)
                 [Control.Frame [] 10] sample_world in
  ∃ tr0,
    first.2 = tr0 ++ [while_not_done false] ∧
    Control.main (SC := Menu.screen sample)
      ([Control.Frame [] 10] ++ [Control.Frame [Event QUIT no_keys] 20])
      sample_world
    = (let '(r, w2, tr2) :=
         Control.main (SC := Menu.screen sample)
           [Control.Frame [Event QUIT no_keys] 20] first.1.2 in
       (r, w2, tr0 ++ tr2)).
Proof.
  intros first.
  apply (main_app (SC := Menu.screen sample) [Control.Frame [] 10]
           [Control.Frame [Event QUIT no_keys] 20] sample_world
           first.1.2 first.2).
  vm_compute. reflexivity.
Defined.

Lemma menu_writes_six_keys_only_witness :
  dict_get 2 "top score"
    (Menu.updates sample [(only K_DOWN, 10); (only K_RETURN, 20)]
       sample_menu sample_heap).2
  = dict_get 2 "top score" sample_heap.
Proof.
  apply (menu_writes_six_keys_only sample
           [(only K_DOWN, 10); (only K_RETURN, 20)] sample_menu sample_heap
           2%positive "top score").
  apply (bool_decide_unpack _). by vm_compute.
Defined.

Lemma menu_timeout_any_keys_witness :
  let a := Menu.startup sample sample_menu 0 2 sample_heap in
  let u := Menu.updates sample
             [(only K_DOWN, 500); (only K_UP, 1200); (no_keys, 1300)]
             a.1 a.2 in
  State.done (Menu.parent u.1) = true ∧
  State.next (Menu.parent u.1) = Some "load screen".
Proof.
  apply (menu_timeout_any_keys sample
           [(only K_DOWN, 500); (only K_UP, 1200); (no_keys, 1300)]
           sample_menu 0 2%positive sample_heap).
  apply Exists_cons_tl, Exists_cons_hd. cbn. lia.
Defined.

Lemma menu_confirm_keeps_given_identity_witness :
  let a := Menu.startup sample sample_menu 0 2 sample_heap_luigi in
  let u := Menu.update sample a.1 (only K_RETURN) 10 a.2 in
  State.done (Menu.parent u.1) = true ∧
  Menu.cursor_state u.1 = "1 PLAYER GAME" ∧
  dict_get 2 "player name" u.2 = Some (VStr "luigi").
Proof.
  intros a u.
  destruct (menu_confirm_keeps_given_identity sample sample_menu 0
              2%positive sample_heap_luigi (only K_RETURN) 10
              sample_keys_distinct eq_refl eq_refl)
    as (Hdone & Hcursor & Hname).
  split; [exact Hdone|]. split; [exact Hcursor|].
  etransitivity; [exact Hname|]. by vm_compute.
Defined.

Lemma menu_cursor_lags_witness :
  let a := Menu.startup sample sample_menu 0 2 sample_heap in
  let u1 := Menu.update sample a.1 (only K_DOWN) 10 a.2 in
  let u2 := Menu.update sample u1.1 no_keys 20 u1.2 in
  Menu.cursor_state u1.1 = "2 PLAYER GAME" ∧ Menu.cursor_rect_y u1.1 = 358 ∧
  Menu.cursor_state u2.1 = "2 PLAYER GAME" ∧ Menu.cursor_rect_y u2.1 = 403.
Proof.
  apply (menu_cursor_lags sample sample_menu 0 2%positive sample_heap
           (only K_DOWN) 10 no_keys 20).
  - discriminate.
  - reflexivity.
  - reflexivity.
Defined.

Lemma menu_clock_entry_witness :
  dict_get 2 "current time"
    (Menu.update sample sample_menu no_keys 25 sample_heap).2
    = Some (VNum 25) ∧
  dict_get 2 "current time"
    (Menu.update sample sample_menu (only K_RETURN) 25 sample_heap).2
    = Some (VNum 0).
Proof.
  assert (is_Some (sample_heap !! Menu.game_info sample_menu)) as Hlive.
  { unfold sample_heap. cbn. rewrite lookup_insert_eq. by eexists. }
  split.
  - exact (menu_clock_entry sample sample_menu no_keys 25 sample_heap
             sample_keys_distinct Hlive).
  - exact (menu_clock_entry sample sample_menu (only K_RETURN) 25
             sample_heap sample_keys_distinct Hlive).
Defined.


Lemma menu_writes_own_bundle_only_witness :
  let a := Menu.startup sample sample_menu 0 2 sample_heap2 in
  let u := Menu.updates sample [(only K_DOWN, 10); (only K_RETURN, 20)]
             a.1 a.2 in
  u.2 !! 4%positive = Some (Menu.initial_persist sample).
Proof.
  apply (menu_writes_own_bundle_only sample
           [(only K_DOWN, 10); (only K_RETURN, 20)] sample_menu 0
           2%positive sample_heap2 4%positive (Menu.initial_persist sample)).
  - discriminate.
  - unfold sample_heap2. apply lookup_insert_eq.
Defined.
